(** * pyarrow.filesystem: a shallow embedding and its verification

    The development follows [python/pyarrow/filesystem.py]:
    - [Py]       : the Python values the module works on (strings, exceptions);
    - [S3]       : [_sanitize_s3] and [S3FSWrapper] ([isdir], [isfile], [walk]);
    - [Local]    : [LocalFileSystem.mkdir] over a model of [os.mkdir]/[os.makedirs];
    - [Resolver] : [_ensure_filesystem] and [resolve_filesystem_and_path];
    - [Usage]    : [FileSystem.disk_usage].

    For each of the last four, a module [..Spec] holds the notions and the
    concrete inputs that the properties are stated with, and a module
    [..Facts] the properties.  [LocalOps] adds the probes and [ls] of the
    local backend; the modules [..More..] hold further properties of the
    same code.

    Strings are Rocq strings holding the UTF-8 encoding of the Python text:
    searching for an ASCII separator and comparing by code point give the
    same results on both.  Python integers are [Z].  Collaborators that are
    not part of the file are parameters (the s3fs client, [os.listdir],
    [urlparse], [str.isnumeric], [int], [pa.hdfs.connect]) or explicit
    models (the host file system behind [os.mkdir] and [os.makedirs], for
    paths written without [.] and [..]). *)

From Stdlib Require Import ZArith Ascii.
From stdpp Require Import base strings list gmap sorting.

Set Warnings "-clear-no-such-hyp,-register-all".

(* ===================================================================== *)
(** * Python values *)
(* ===================================================================== *)

Module Py.

(** The exception classes that the module raises, catches or lets through. *)
Inductive exn_class :=
| OSError
| FileNotFoundError
| FileExistsError
| NotADirectoryError
| PermissionError
| ValueError
| TypeError
| KeyError
| NotImplementedError.

#[global] Instance exn_class_eq_dec : EqDecision exn_class.
Proof. solve_decision. Defined.

(** [issubclass(e, OSError)]: what an [except OSError] clause catches.
    ([IOError] is an alias of [OSError].) *)
Definition is_OSError (e : exn_class) : bool :=
  match e with
  | OSError | FileNotFoundError | FileExistsError
  | NotADirectoryError | PermissionError => true
  | _ => false
  end.

(** A raised exception: its class and its message. *)
Record exn := Exn { exn_cls : exn_class; exn_msg : string }.

#[global] Instance exn_eq_dec : EqDecision exn.
Proof. solve_decision. Defined.

(** The outcome of a call: a value or a raised exception. *)
Inductive result (A : Type) :=
| Ok (a : A)
| Raise (e : exn).
Arguments Ok {A} a.
Arguments Raise {A} e.

Definition bind {A B} (r : result A) (k : A -> result B) : result B :=
  match r with
  | Ok a => k a
  | Raise e => Raise e
  end.

(** [try: body  except OSError: handler] *)
Definition try_except_OSError {A} (body : result A) (handler : result A)
  : result A :=
  match body with
  | Ok a => Ok a
  | Raise e => if is_OSError (exn_cls e) then handler else Raise e
  end.

(** ** [str] methods *)

(** [s.startswith(p)] *)
Definition startswith (s p : string) : bool := String.prefix p s.

(** [s.replace(old, new)] for a non-empty [old]: every occurrence of [old],
    scanning from the left without overlap, becomes [new].  [skip] counts
    the characters of a matched occurrence that are still to be dropped. *)
Fixpoint replace_go (old new : string) (skip : nat) (s : string) : string :=
  match s with
  | "" => ""
  | String c s' =>
      match skip with
      | S k => replace_go old new k s'
      | O =>
          if String.prefix old s
          then new +:+ replace_go old new (String.length old - 1) s'
          else String c (replace_go old new 0 s')
      end
  end.

Definition replace (s old new : string) : string := replace_go old new 0 s.

(** [s.split(sep)] for a one-character separator: never the empty list. *)
Fixpoint split (sep : ascii) (s : string) : list string :=
  match s with
  | "" => [""]
  | String c s' =>
      if decide (c = sep) then "" :: split sep s'
      else match split sep s' with
           | w :: ws => String c w :: ws
           | [] => [String c ""]
           end
  end.

(** [sep.join(args)] *)
Fixpoint join (sep : string) (args : list string) : string :=
  match args with
  | [] => ""
  | [a] => a
  | a :: rest => a +:+ sep +:+ join sep rest
  end.

(** ** [posixpath.split(p)[1]]

    [posixpath.split] cuts [p] after its last slash, at index
    [p.rfind('/') + 1]; the second component is what follows the cut. *)
Fixpoint rfind_go (c : ascii) (s : string) (i : Z) (found : Z) : Z :=
  match s with
  | "" => found
  | String a s' => rfind_go c s' (i + 1) (if decide (a = c) then i else found)
  end.

(** [s.rfind(c)]: the highest index of [c] in [s], or [-1]. *)
Definition rfind (s : string) (c : ascii) : Z := rfind_go c s 0 (-1).

(** [s[i:]] for [0 <= i] *)
Fixpoint slice_from (i : nat) (s : string) : string :=
  match i, s with
  | O, _ => s
  | S i', String _ s' => slice_from i' s'
  | S _, "" => ""
  end.

Definition posixpath_split_tail (p : string) : string :=
  let i := (rfind p "/"%char + 1)%Z in
  slice_from (Z.to_nat i) p.

(** A triple [(root, directories, files)] as [walk] yields them. *)
Definition triple : Type := string * list string * list string.

(** [sorted(l)] on strings: ascending, by code point. *)
Definition sorted (l : list string) : list string := merge_sort String.le l.

End Py.

Import Py.

(* ===================================================================== *)
(** * The object-store adapter: [S3FSWrapper] *)
(* ===================================================================== *)

Module S3.

(** One entry of the detailed listing [fs._ls(path)]: a dict with the keys
    ['Key'] and ['StorageClass']. *)
Record ls_entry := LsEntry { Key : string; StorageClass : string }.

(** The wrapped s3fs client [self.fs], as far as the wrapper uses it:
    [ls] gives the keys under a path, [_ls] the detailed entries. *)
Record client := Client {
  fs_ls : string -> result (list string);
  fs__ls : string -> bool -> result (list ls_entry)
}.

Definition _sanitize_s3 (path : string) : string :=
  if startswith path "s3://" then replace path "s3://" "" else path.

(** [len(contents) == 1 and contents[0] == path] *)
Definition single_entry_is (contents : list string) (path : string) : bool :=
  match contents with
  | [c] => bool_decide (c = path)
  | _ => false
  end.

Definition isdir (fs : client) (path : string) : result bool :=
  let path := _sanitize_s3 path in
  try_except_OSError
    (bind (fs_ls fs path) (fun contents =>
       if single_entry_is contents path then Ok false else Ok true))
    (Ok false).

Definition isfile (fs : client) (path : string) : result bool :=
  let path := _sanitize_s3 path in
  try_except_OSError
    (bind (fs_ls fs path) (fun contents =>
       Ok (single_entry_is contents path)))
    (Ok false).

(** ** [walk] *)

(** The local variables of the listing loop: [path], [directories], [files]. *)
Definition level_state : Type := string * gset string * gset string.

(** One iteration of [for key in list(self.fs._ls(path, refresh=refresh))].
    The loop variable assignment [path = key['Key']] rebinds [path]. *)
Definition level_step (st : level_state) (key : ls_entry) : level_state :=
  let '(_, directories, files) := st in
  let path := Key key in
  if decide (StorageClass key = "DIRECTORY") then
    (path, {[ path ]} ∪ directories, files)
  else if decide (StorageClass key = "BUCKET") then
    (path, directories, files)
  else
    (path, directories, {[ path ]} ∪ files).

(** The body of [walk] up to its first [yield]: the listing loop, then the
    two comprehensions. [path] is the sanitized argument. *)
Definition walk_level (path : string) (entries : list ls_entry) : triple :=
  let '(path, directories, files) :=
    fold_left level_step entries (path, ∅, ∅) in
  let files :=
    sorted (posixpath_split_tail <$>
              filter (fun f => f ∉ directories) (elements files)) in
  let directories :=
    sorted (posixpath_split_tail <$> elements directories) in
  (path, directories, files).

(** How a run of the generator ends: exhausted, by an exception of the
    client, or not within the given depth of nested calls.  With the depth
    that the interpreter allows, the last is the run that the interpreter
    ends with [RecursionError]. *)
Inductive ending :=
| Exhausted
| Raised (e : exn)
| Unfinished.

Definition run : Type := list triple * ending.

(** [for directory in directories: for tup in self.walk(directory): yield tup] *)
Fixpoint walk_children (rec : string -> run) (directories : list string)
  : run :=
  match directories with
  | [] => ([], Exhausted)
  | directory :: rest =>
      match rec directory with
      | (tups, Exhausted) =>
          let '(tups', e) := walk_children rec rest in (tups ++ tups', e)
      | (tups, e) => (tups, e)
      end
  end.

(** [walk]: the triples yielded and how the generator ends. [depth] bounds
    the nesting of recursive calls. *)
Fixpoint walk (depth : nat) (fs : client) (path : string) (refresh : bool)
  : run :=
  match depth with
  | O => ([], Unfinished)
  | S depth' =>
      let path := _sanitize_s3 path in
      match fs__ls fs path refresh with
      | Raise e => ([], Raised e)
      | Ok entries =>
          let '(path, directories, files) := walk_level path entries in
          let '(tups, e) :=
            walk_children (fun directory => walk depth' fs directory refresh)
                          directories in
          ((path, directories, files) :: tups, e)
      end
  end.

End S3.

(* ===================================================================== *)
(** * The local backend: [LocalFileSystem.mkdir] *)
(* ===================================================================== *)

Module Local.

(** The host file system as Python's [os] module presents it.  A path is
    the sequence of its components, innermost first: [/home/u/data] is
    [["data"; "u"; "home"]] and [[]] is the root, so that [os.path.split]
    is the decomposition of the list into its head and its tail.  The
    components are names: the model does not resolve [.] and [..], and
    stands for the host on paths written without them. *)
Abbreviation path := (list string).

Inductive node_kind := File | Directory.

#[global] Instance node_kind_eq_dec : EqDecision node_kind.
Proof. solve_decision. Defined.

(** The entries of the file system, apart from the root. *)
Abbreviation fs_state := (gmap (list string) node_kind).

(** What looking a path up gives: an entry, or the error of the lookup. *)
Inductive lookup_result :=
| Found (k : node_kind)
| ENOENT
| ENOTDIR.

(** Path resolution, component by component from the root. *)
Fixpoint lookup_path (st : fs_state) (p : path) : lookup_result :=
  match p with
  | [] => Found Directory
  | _ :: parent =>
      match lookup_path st parent with
      | Found Directory =>
          match st !! p with
          | Some k => Found k
          | None => ENOENT
          end
      | Found File => ENOTDIR
      | err => err
      end
  end.

(** [os.path.exists(p)] *)
Definition exists_ (st : fs_state) (p : path) : bool :=
  match lookup_path st p with
  | Found _ => true
  | _ => false
  end.

Definition raise_os {A} (c : exn_class) : result A := Raise (Exn c "").

(** [os.mkdir(name)]: creates one directory; its parent must be an existing
    directory and [name] itself must not exist. *)
Definition os_mkdir (st : fs_state) (name : path) : result fs_state :=
  match name with
  | [] => raise_os FileExistsError
  | _ :: parent =>
      match lookup_path st parent with
      | Found Directory =>
          match st !! name with
          | Some _ => raise_os FileExistsError
          | None => Ok (<[name := Directory]> st)
          end
      | Found File => raise_os NotADirectoryError
      | ENOENT => raise_os FileNotFoundError
      | ENOTDIR => raise_os NotADirectoryError
      end
  end.

(** [os.makedirs(name)], with [exist_ok] left at its default [False]:
<<
    head, tail = path.split(name)
    if head and tail and not path.exists(head):
        try:
            makedirs(head, exist_ok=exist_ok)
        except FileExistsError:
            pass
    try:
        mkdir(name, mode)
    except OSError:
        if not exist_ok or not path.isdir(name):
            raise
>> *)
Fixpoint os_makedirs (st : fs_state) (name : path) : result fs_state :=
  match name with
  | [] => os_mkdir st name
  | _ :: head =>
      if negb (exists_ st head) then
        match os_makedirs st head with
        | Ok st' => os_mkdir st' name
        | Raise e =>
            if decide (exn_cls e = FileExistsError) then os_mkdir st name
            else Raise e
        end
      else os_mkdir st name
  end.

(** [LocalFileSystem.mkdir(path, create_parents)] *)
Definition mkdir (st : fs_state) (path : path) (create_parents : bool)
  : result fs_state :=
  if create_parents then os_makedirs st path else os_mkdir st path.

End Local.

(* ===================================================================== *)
(** * The local backend: the probes and [ls] *)
(* ===================================================================== *)

Module LocalOps.
Import Local.

(** [LocalFileSystem.isdir(path)]: [os.path.isdir], which is [False] for
    what does not resolve. *)
Definition isdir (st : fs_state) (path : list string) : bool :=
  match lookup_path st path with
  | Found Directory => true
  | _ => false
  end.

(** [LocalFileSystem.isfile(path)]: [os.path.isfile]. *)
Definition isfile (st : fs_state) (path : list string) : bool :=
  match lookup_path st path with
  | Found File => true
  | _ => false
  end.

(** [LocalFileSystem.exists(path)]: [os.path.exists]. *)
Definition exists' (st : fs_state) (path : list string) : bool :=
  exists_ st path.

(** [s.endswith(c)] for a character [c]. *)
Fixpoint endswith_char (s : string) (c : ascii) : bool :=
  match s with
  | "" => false
  | String a "" => bool_decide (a = c)
  | String _ s' => endswith_char s' c
  end.

(** [os.path.join(a, b)] on a POSIX host:
<<
    if b.startswith(sep): path = b
    elif not path or path.endswith(sep): path += b
    else: path += sep + b
>> *)
Definition pjoin (a b : string) : string :=
  if startswith b "/" then b
  else if bool_decide (a = "") || endswith_char a "/" then a +:+ b
  else a +:+ "/" +:+ b.

Section ls.

(** [os.listdir]: the names in a directory, in the order the host gives
    them, or the error of the host. *)
Variable os_listdir : string → result (list string).

(** [LocalFileSystem.ls(path)] *)
Definition ls (path : string) : result (list string) :=
  bind (os_listdir path) (fun names => Ok (sorted (pjoin path <$> names))).

End ls.

End LocalOps.

(* ===================================================================== *)
(** * Backend and location resolution *)
(* ===================================================================== *)

Module Resolver.

(** A class, identified by its [__module__] and [__name__]. *)
Record pyclass := PyClass { cls_module : string; cls_name : string }.

#[global] Instance pyclass_eq_dec : EqDecision pyclass.
Proof. solve_decision. Defined.

(** [pyarrow.filesystem.FileSystem] *)
Definition FileSystem_cls : pyclass := PyClass "pyarrow.filesystem" "FileSystem".

(** A file system object handed in by the caller: its identity,
    [inspect.getmro(type(fs))] with the type itself first, and the text that
    ['{0}'.format(type(fs))] gives for its type. *)
Record pyobject := PyObject {
  obj_id : nat;
  obj_mro : list pyclass;
  obj_type_format : string
}.

(** [issubclass(fs_type, FileSystem)] *)
Definition issubclass_FileSystem (mro : list pyclass) : bool :=
  bool_decide (FileSystem_cls ∈ mro).

(** The file systems that resolution returns. *)
Inductive backend :=
| Unchanged (fs : pyobject)
| S3FSWrapper (fs : pyobject)
| LocalFileSystem (id : nat)
| HadoopFileSystem (host : string) (port : Z).

(** The state resolution works on: the class attribute
    [LocalFileSystem._instance] and the identity of the next object
    to be created. *)
Record interp := Interp { _instance : option nat; next_id : nat }.

(** Stateful, fallible computations. *)
Definition M (A : Type) : Type := interp -> result A * interp.

Definition ret {A} (a : A) : M A := fun st => (Ok a, st).
Definition raise {A} (c : exn_class) (msg : string) : M A :=
  fun st => (Raise (Exn c msg), st).
Definition lift {A} (r : result A) : M A := fun st => (r, st).
Definition mbind {A B} (m : M A) (k : A -> M B) : M B :=
  fun st =>
    match m st with
    | (Ok a, st') => k a st'
    | (Raise e, st') => (Raise e, st')
    end.

Notation "'let*' x ':=' m 'in' k" := (mbind m (fun x => k))
  (at level 10, x name, m at level 100, k at level 200).

(** [LocalFileSystem.get_instance()] *)
Definition get_instance : M backend :=
  fun st =>
    match _instance st with
    | None =>
        let id := next_id st in
        (Ok (LocalFileSystem id),
         {| _instance := Some id; next_id := S id |})
    | Some id => (Ok (LocalFileSystem id), st)
    end.

(** The loop [for mro in inspect.getmro(fs_type)] of [_ensure_filesystem],
    followed by the [raise] that ends the branch. *)
Fixpoint ensure_loop (fs : pyobject) (mro : list pyclass) : M backend :=
  match mro with
  | [] => raise OSError ("Unrecognized filesystem: " +:+ obj_type_format fs)
  | c :: rest =>
      if decide (cls_name c = "S3FileSystem") then ret (S3FSWrapper fs)
      else if decide (cls_name c = "LocalFileSystem") then get_instance
      else ensure_loop fs rest
  end.

Definition _ensure_filesystem (fs : pyobject) : M backend :=
  let fs_type := obj_mro fs in
  if negb (issubclass_FileSystem fs_type) then ensure_loop fs fs_type
  else ret (Unchanged fs).

(** The argument [where]: a string, an object with a file system path,
    or an open stream. *)
Inductive pyinput :=
| Str (s : string)
| PathObject (fspath : string)
| Stream (id : nat).

(** Modelled from the spec: [pyarrow.util._is_path_like], which is not part
    of [filesystem.py]; it tells an input that is path-like (a plain string
    or a path-like object) from an already-open stream. *)
Definition _is_path_like (w : pyinput) : bool :=
  match w with
  | Str _ | PathObject _ => true
  | Stream _ => false
  end.

(** Modelled from the spec: [pyarrow.util._stringify_path], which is not
    part of [filesystem.py]; it normalizes an input (plain string or
    path-like object) to a canonical string form. *)
Definition _stringify_path (w : pyinput) : M string :=
  match w with
  | Str s | PathObject s => ret s
  | Stream _ => raise TypeError "not a path-like object"
  end.

(** The fields of [urlparse(path)] that resolution reads. *)
Record parse_result := ParseResult {
  scheme : string;
  netloc : string;
  uri_path : string
}.

(** What resolution calls outside the module.  Each of them is taken as it
    is, with the exceptions it raises:
    [six.moves.urllib.parse.urlparse], which raises [ValueError] on a
    location it rejects; [str.isnumeric]; [int], which raises [ValueError]
    on text it cannot read; [pa.hdfs.connect(host=host, port=port)]. *)
Record library := Library {
  urlparse : string -> result parse_result;
  isnumeric : string -> bool;
  int : string -> result Z;
  hdfs_connect : string -> Z -> result backend
}.

Section resolve.

Variable lib : library.

Definition resolve_filesystem_and_path
    (where_ : pyinput) (filesystem : option pyobject)
  : M (option backend * pyinput) :=
  if negb (_is_path_like where_) then
    match filesystem with
    | Some _ =>
        raise ValueError
          ("filesystem passed but where is file-like, so"
           +:+ " there is nothing to open with filesystem.")
    | None => ret (None, where_)
    end
  else
    let* path := _stringify_path where_ in
    match filesystem with
    | Some filesystem =>
        let* fs := _ensure_filesystem filesystem in
        ret (Some fs, Str path)
    | None =>
        let* parsed_uri := lift (urlparse lib path) in
        if bool_decide (scheme parsed_uri = "hdfs")
           || bool_decide (scheme parsed_uri = "viewfs") then
          let netloc_split := split ":"%char (netloc parsed_uri) in
          let host := default "" (head netloc_split) in
          let host :=
            if decide (host = "") then "default"
            else scheme parsed_uri +:+ "://" +:+ host in
          let* port :=
            if bool_decide (length netloc_split = 2%nat)
               && isnumeric lib (default "" (netloc_split !! 1%nat))
            then lift (int lib (default "" (netloc_split !! 1%nat)))
            else ret 0%Z in
          let* fs := lift (hdfs_connect lib host port) in
          ret (Some fs, Str (uri_path parsed_uri))
        else if decide (scheme parsed_uri = "file") then
          let* fs := get_instance in
          ret (Some fs, Str (uri_path parsed_uri))
        else
          let* fs := get_instance in
          ret (Some fs, where_)
    end.

End resolve.

End Resolver.

(* ===================================================================== *)
(** * The generic [FileSystem.disk_usage] *)
(* ===================================================================== *)

Module Usage.

(** The dict that [stat] returns, as far as [disk_usage] reads it. *)
Record stat_result := StatResult { kind : string; size : Z }.

(** The methods of a backend that [disk_usage] calls.  [walk] gives the
    triples [(root, directories, files)] in the order they are yielded, for
    a walk that runs to its end; [Raise] is a walk that raises before its
    first triple.  A walk that raises after some triples has no value
    here, and no property below speaks of one. *)
Class FileSystem (B : Type) := {
  stat : B -> string -> result stat_result;
  walk : B -> string -> result (list triple);
  pathsep : B -> string
}.

Section disk_usage.
Context {B : Type} `{FileSystem B}.

Definition _path_join (self : B) (args : list string) : string :=
  join (pathsep self) args.

(** [for child_path in files: total += self.stat(abspath)['size']] *)
Fixpoint add_files (self : B) (root : string) (files : list string)
    (total : Z) : result Z :=
  match files with
  | [] => Ok total
  | child_path :: rest =>
      let abspath := _path_join self [root; child_path] in
      bind (stat self abspath) (fun info =>
        add_files self root rest (total + size info)%Z)
  end.

(** [for root, directories, files in self.walk(path): ...] *)
Fixpoint add_triples (self : B) (tups : list triple) (total : Z)
  : result Z :=
  match tups with
  | [] => Ok total
  | (root, _, files) :: rest =>
      bind (add_files self root files total) (fun total =>
        add_triples self rest total)
  end.

Definition disk_usage (self : B) (path : string) : result Z :=
  bind (stat self path) (fun path_info =>
    if decide (kind path_info = "file") then Ok (size path_info)
    else
      bind (walk self path) (fun tups => add_triples self tups 0%Z)).

End disk_usage.

End Usage.

(* ===================================================================== *)
(** * Concrete stores, used to run the definitions *)
(* ===================================================================== *)

Module Scenarios.
Import S3.

(** A bucket with the objects [bucket/key/a.parquet] and
    [bucket/key/sub/b.parquet]; the listing of [bucket/key] reports the
    marker of [sub] twice. *)
Definition nested_ls (p : string) : list ls_entry :=
  if decide (p = "bucket/key") then
    [LsEntry "bucket/key/sub" "DIRECTORY";
     LsEntry "bucket/key/sub" "DIRECTORY";
     LsEntry "bucket/key/a.parquet" "STANDARD"]
  else if decide (p = "bucket/key/sub") then
    [LsEntry "bucket/key/sub/b.parquet" "STANDARD"]
  else [].

Definition nested_store : client :=
  Client (fun p => Ok (Key <$> nested_ls p)) (fun p _ => Ok (nested_ls p)).

(** A store in which nothing is listed under any path. *)
Definition empty_store : client :=
  Client (fun _ => Ok []) (fun _ _ => Ok []).

(** A store that holds one object, under the key [k]. *)
Definition single_object_store (k : string) : client :=
  Client (fun p => if decide (p = k) then Ok [k] else Ok [])
         (fun p _ => if decide (p = k) then Ok [LsEntry k "STANDARD"]
                     else Ok []).

(** A store whose listing calls fail with the exception [e]. *)
Definition failing_store (e : exn) : client :=
  Client (fun _ => Raise e) (fun _ _ => Raise e).

End Scenarios.

(* ===================================================================== *)
(** * The notions the properties are stated with *)
(* ===================================================================== *)

Module S3Spec.
Import S3.

(** Stripping the leading [s3://] of a path, and nothing else. *)
Definition strip_leading_s3 (path : string) : string :=
  if startswith path "s3://" then slice_from 5 path else path.

(** The reading of the sentence on [isdir] under which an empty listing
    makes the probe answer [False]. *)
Definition isdir_false_on_empty_listing : Prop :=
  ∀ (fs : client) (p : string),
    fs_ls fs (_sanitize_s3 p) = Ok [] → isdir fs p = Ok false.

(** The three storage-class tags that [walk] tells apart. *)
Definition is_directory_entry (e : ls_entry) : Prop :=
  StorageClass e = "DIRECTORY".
Definition is_bucket_entry (e : ls_entry) : Prop :=
  StorageClass e = "BUCKET".
Definition is_object_entry (e : ls_entry) : Prop :=
  StorageClass e ≠ "DIRECTORY" ∧ StorageClass e ≠ "BUCKET".

#[export] Instance is_directory_entry_dec e : Decision (is_directory_entry e).
Proof. unfold is_directory_entry. apply _. Defined.
#[export] Instance is_bucket_entry_dec e : Decision (is_bucket_entry e).
Proof. unfold is_bucket_entry. apply _. Defined.
#[export] Instance is_object_entry_dec e : Decision (is_object_entry e).
Proof. unfold is_object_entry. apply _. Defined.

(** The keys of the pseudo-directory markers of a listing, as a set. *)
Definition directory_keys (entries : list ls_entry) : gset string :=
  list_to_set (Key <$> filter is_directory_entry entries).
(** The keys of the regular objects of a listing, as a set. *)
Definition object_keys (entries : list ls_entry) : gset string :=
  list_to_set (Key <$> filter is_object_entry entries).

(** The value of the variable [path] when the listing loop ends. *)
Fixpoint last_key (path : string) (entries : list ls_entry) : string :=
  match entries with
  | [] => path
  | e :: entries => last_key (Key e) entries
  end.

#[export] Instance not_bucket_dec e : Decision (¬ is_bucket_entry e).
Proof. apply _. Defined.

(** The second and third components of a yielded triple. *)
Definition level_directories (t : triple) : list string := t.1.2.
Definition level_files (t : triple) : list string := t.2.

End S3Spec.

(* ===================================================================== *)
(** * Properties of the object-store adapter *)
(* ===================================================================== *)

Module S3Facts.
Import S3 Scenarios S3Spec.

(** ** The two probes *)

Lemma single_entry_is_spec contents path :
  single_entry_is contents path = true ↔ contents = [path].
Proof.
  destruct contents as [|c [|c' rest]]; simpl; try (split; [done|congruence]).
  rewrite bool_decide_eq_true. split; congruence.
Qed.

Lemma single_entry_is_false contents path :
  single_entry_is contents path = false ↔ contents ≠ [path].
Proof.
  rewrite <- single_entry_is_spec. destruct (single_entry_is _ _); split; congruence.
Qed.

(** On a store that lists nothing under [bucket/key], [isdir] answers
    [True]: the sentence on empty listings does not hold of the code. *)
Lemma isdir_empty_listing_is_true :
  isdir empty_store "bucket/key" = Ok true ∧ ¬ isdir_false_on_empty_listing.
Proof.
  split; [reflexivity|].
  intros Hclaim. specialize (Hclaim empty_store "bucket/key" eq_refl).
  discriminate Hclaim.
Qed.

(** C3, as the code has it: [isdir p] answers [False] when the listing of
    the sanitized path is exactly the one entry equal to that path, [True]
    for every other listing that succeeds (the empty one included), and
    [False] when the listing raises an [OSError]. *)
Theorem isdir_classification (fs : client) (p : string) :
  (fs_ls fs (_sanitize_s3 p) = Ok [_sanitize_s3 p] → isdir fs p = Ok false)
  ∧ (∀ contents, fs_ls fs (_sanitize_s3 p) = Ok contents →
       contents ≠ [_sanitize_s3 p] → isdir fs p = Ok true)
  ∧ (∀ e, fs_ls fs (_sanitize_s3 p) = Raise e →
       is_OSError (exn_cls e) = true → isdir fs p = Ok false).
Proof.
  unfold isdir. repeat split.
  - intros ->. simpl. by rewrite bool_decide_true.
  - intros contents -> Hne. simpl.
    apply single_entry_is_false in Hne. by rewrite Hne.
  - intros e -> He. simpl. by rewrite He.
Qed.

Lemma isdir_classification_witness :
  isdir (single_object_store "bucket/key") "s3://bucket/key" = Ok false
  ∧ isdir nested_store "bucket/key" = Ok true
  ∧ isdir (failing_store (Exn FileNotFoundError "bucket/key")) "bucket/key"
    = Ok false.
Proof.
  split; [|split].
  - apply (proj1 (isdir_classification
                    (single_object_store "bucket/key") "s3://bucket/key")).
    reflexivity.
  - apply (proj1 (proj2 (isdir_classification nested_store "bucket/key"))
             ["bucket/key/sub"; "bucket/key/sub"; "bucket/key/a.parquet"]).
    + reflexivity.
    + discriminate.
  - apply (proj2 (proj2 (isdir_classification
             (failing_store (Exn FileNotFoundError "bucket/key")) "bucket/key"))
             (Exn FileNotFoundError "bucket/key")); reflexivity.
Defined.

(** C10: whenever the listing succeeds, [isdir] and [isfile] both return,
    and [isdir] is the negation of [isfile]: never both true, never both
    false. *)
Theorem isdir_negates_isfile (fs : client) (p : string) (contents : list string) :
  fs_ls fs (_sanitize_s3 p) = Ok contents →
  ∃ b : bool, isfile fs p = Ok b ∧ isdir fs p = Ok (negb b).
Proof.
  intros Hls. exists (single_entry_is contents (_sanitize_s3 p)).
  unfold isfile, isdir. rewrite Hls. simpl.
  split; [done|]. by destruct (single_entry_is _ _).
Qed.

Lemma isdir_negates_isfile_witness :
  ∃ b : bool, isfile nested_store "s3://bucket/key" = Ok b
              ∧ isdir nested_store "s3://bucket/key" = Ok (negb b).
Proof.
  apply (isdir_negates_isfile nested_store "s3://bucket/key"
           ["bucket/key/sub"; "bucket/key/sub"; "bucket/key/a.parquet"]).
  reflexivity.
Defined.

(** What [isfile] answers on a listing that succeeds. *)
Lemma isfile_listing fs p contents :
  fs_ls fs (_sanitize_s3 p) = Ok contents →
  isfile fs p = Ok (bool_decide (contents = [_sanitize_s3 p])).
Proof.
  intros Hls. unfold isfile. rewrite Hls. simpl. f_equal.
  destruct (single_entry_is contents (_sanitize_s3 p)) eqn:Hsingle.
  - apply single_entry_is_spec in Hsingle. by rewrite bool_decide_true.
  - apply single_entry_is_false in Hsingle. by rewrite bool_decide_false.
Qed.

(** ** [_sanitize_s3] *)

(** A path without the scheme marker is left as it is. *)
Lemma sanitize_plain_path p :
  startswith p "s3://" = false → _sanitize_s3 p = p ∧ strip_leading_s3 p = p.
Proof. intros Hp. unfold _sanitize_s3, strip_leading_s3. by rewrite Hp. Qed.

(** C7, at the path [s3://bucket/s3://key]: [_sanitize_s3] removes the
    second [s3://] too, so [isfile] compares the listing with [bucket/key]
    and answers [True] on a store whose only object is [bucket/key], while
    the path with its leading prefix stripped is [bucket/s3://key], which
    the listing does not contain. *)
Theorem isfile_inner_scheme_marker :
  let p := "s3://bucket/s3://key" in
  let fs := single_object_store "bucket/key" in
  strip_leading_s3 p = "bucket/s3://key"
  ∧ _sanitize_s3 p = "bucket/key"
  ∧ fs_ls fs (_sanitize_s3 p) = Ok ["bucket/key"]
  ∧ fs_ls fs (strip_leading_s3 p) = Ok []
  ∧ isfile fs p = Ok true.
Proof. repeat split; reflexivity. Qed.

(** ** One level of [walk] *)

Lemma elem_of_directory_keys k entries :
  k ∈ directory_keys entries ↔
  ∃ e, e ∈ entries ∧ Key e = k ∧ StorageClass e = "DIRECTORY".
Proof.
  unfold directory_keys. rewrite elem_of_list_to_set, list_elem_of_fmap.
  setoid_rewrite list_elem_of_filter. unfold is_directory_entry. naive_solver.
Qed.

Lemma elem_of_object_keys k entries :
  k ∈ object_keys entries ↔
  ∃ e, e ∈ entries ∧ Key e = k
       ∧ StorageClass e ≠ "DIRECTORY" ∧ StorageClass e ≠ "BUCKET".
Proof.
  unfold object_keys. rewrite elem_of_list_to_set, list_elem_of_fmap.
  setoid_rewrite list_elem_of_filter. unfold is_object_entry. naive_solver.
Qed.

Lemma directory_keys_cons e entries :
  directory_keys (e :: entries)
  = (if decide (StorageClass e = "DIRECTORY") then {[ Key e ]} else ∅)
      ∪ directory_keys entries.
Proof.
  unfold directory_keys. rewrite filter_cons. unfold is_directory_entry at 1.
  case_decide; simpl; [done|]. by rewrite (left_id_L ∅ (∪)).
Qed.

Lemma object_keys_cons e entries :
  object_keys (e :: entries)
  = (if decide (StorageClass e = "DIRECTORY") then ∅
     else if decide (StorageClass e = "BUCKET") then ∅ else {[ Key e ]})
      ∪ object_keys entries.
Proof.
  unfold object_keys. rewrite filter_cons. unfold is_object_entry at 1.
  repeat case_decide; simpl; try tauto; by rewrite ?(left_id_L ∅ (∪)).
Qed.

Lemma last_key_cons path e entries :
  last_key path (e :: entries) = last_key (Key e) entries.
Proof.
  reflexivity.
Qed.

Lemma fold_level_step entries path D F :
  fold_left level_step entries (path, D, F)
  = (last_key path entries,
     directory_keys entries ∪ D, object_keys entries ∪ F).
Proof.
  revert path D F. induction entries as [|e entries IH]; intros path D F.
  - unfold directory_keys, object_keys. simpl.
    by rewrite !(left_id_L ∅ (∪)).
  - rewrite directory_keys_cons, object_keys_cons, last_key_cons.
    cbn [fold_left level_step].
    destruct (decide (StorageClass e = "DIRECTORY"));
      [|destruct (decide (StorageClass e = "BUCKET"))];
      rewrite IH; (f_equal; [f_equal|]); set_solver.
Qed.

Lemma last_key_last path entries :
  last_key path entries = default path (Key <$> last entries).
Proof.
  revert path. induction entries as [|e entries IH]; intros path; [done|].
  cbn [last_key]. rewrite IH. destruct entries as [|e' entries]; [done|].
  rewrite last_cons_cons.
  destruct (last (e' :: entries)) eqn:Hlast; [done|].
  by apply last_None in Hlast.
Qed.

Lemma walk_level_eq path entries :
  walk_level path entries
  = (last_key path entries,
     sorted (posixpath_split_tail <$> elements (directory_keys entries)),
     sorted (posixpath_split_tail <$>
               filter (fun f => f ∉ directory_keys entries)
                      (elements (object_keys entries)))).
Proof.
  unfold walk_level. rewrite fold_level_step.
  by rewrite !(right_id_L ∅ (∪)).
Qed.

Lemma filter_elements_difference (F D : gset string) :
  filter (fun f => f ∉ D) (elements F) ≡ₚ elements (F ∖ D).
Proof.
  apply NoDup_Permutation.
  - apply NoDup_filter, NoDup_elements.
  - apply NoDup_elements.
  - intros x. rewrite list_elem_of_filter, !elem_of_elements. set_solver.
Qed.

Lemma directory_keys_skip_buckets entries :
  directory_keys (filter (fun e => ¬ is_bucket_entry e) entries)
  = directory_keys entries.
Proof.
  apply set_eq. intros k. rewrite !elem_of_directory_keys.
  setoid_rewrite list_elem_of_filter. unfold is_bucket_entry.
  split; [naive_solver|]. intros (e & ? & ? & Hd). exists e.
  repeat split; try done. rewrite Hd. discriminate.
Qed.

Lemma object_keys_skip_buckets entries :
  object_keys (filter (fun e => ¬ is_bucket_entry e) entries)
  = object_keys entries.
Proof.
  apply set_eq. intros k. rewrite !elem_of_object_keys.
  setoid_rewrite list_elem_of_filter. unfold is_bucket_entry. naive_solver.
Qed.

(** What [walk_level] computes, against the sets of keys of the listing. *)
Lemma walk_level_partition (path : string) (entries : list ls_entry) :
  let '(_, directories, files) := walk_level path entries in
  directories ≡ₚ posixpath_split_tail <$> elements (directory_keys entries)
  ∧ length directories = size (directory_keys entries)
  ∧ Sorted String.le directories
  ∧ files ≡ₚ posixpath_split_tail <$>
               elements (object_keys entries ∖ directory_keys entries)
  ∧ Sorted String.le files
  ∧ level_directories
      (walk_level path (filter (fun e => ¬ is_bucket_entry e) entries))
    = directories
  ∧ level_files
      (walk_level path (filter (fun e => ¬ is_bucket_entry e) entries))
    = files.
Proof.
  rewrite walk_level_eq. unfold sorted. repeat split.
  - apply merge_sort_Permutation.
  - by rewrite merge_sort_Permutation, length_fmap.
  - apply (Sorted_merge_sort _).
  - rewrite merge_sort_Permutation. by rewrite filter_elements_difference.
  - apply (Sorted_merge_sort _).
  - rewrite walk_level_eq. unfold level_directories. simpl.
    by rewrite directory_keys_skip_buckets.
  - rewrite walk_level_eq. unfold level_files. simpl.
    by rewrite directory_keys_skip_buckets, object_keys_skip_buckets.
Qed.

(** ** The triples of [walk] *)

Lemma walk_children_levels (rec : string → run) (P : triple → Prop) ds :
  (∀ d t, t ∈ (rec d).1 → P t) →
  ∀ t, t ∈ (walk_children rec ds).1 → P t.
Proof.
  intros Hrec. induction ds as [|d ds IH]; intros t; simpl.
  - by intros ?%elem_of_nil.
  - destruct (rec d) as [tups e] eqn:Hd.
    assert (Hhere : ∀ t, t ∈ tups → P t).
    { intros t' Ht'. apply (Hrec d). by rewrite Hd. }
    destruct e; [|by auto..].
    destruct (walk_children rec ds) as [tups' e'].
    simpl in *. rewrite elem_of_app. intros [?|?]; auto.
Qed.

(** Every triple that [walk] yields is the [walk_level] of one listing. *)
Lemma walk_yields_levels depth fs path refresh t :
  t ∈ (walk depth fs path refresh).1 →
  ∃ q entries, fs__ls fs q refresh = Ok entries ∧ t = walk_level q entries.
Proof.
  revert path t. induction depth as [|depth IH]; intros path t; simpl.
  - by intros ?%elem_of_nil.
  - destruct (fs__ls fs (_sanitize_s3 path) refresh) as [entries|e] eqn:Hls;
      [|by intros ?%elem_of_nil].
    destruct (walk_level (_sanitize_s3 path) entries)
      as [[top directories] files] eqn:Hlevel.
    destruct (walk_children _ directories) as [tups e] eqn:Hch.
    simpl. rewrite elem_of_cons. intros [->|Ht].
    + exists (_sanitize_s3 path), entries. by rewrite Hlevel.
    + eapply (walk_children_levels
                (fun directory => walk depth fs directory refresh)
                (fun t => ∃ q entries,
                   fs__ls fs q refresh = Ok entries ∧ t = walk_level q entries)
                directories).
      * intros d t'. apply IH.
      * by rewrite Hch.
Qed.

(** C2: every triple [(top, directories, files)] that [walk] yields comes
    from one listing [entries], partitioned by storage class:
    [directories] holds one name for each distinct key tagged
    [DIRECTORY], [files] one name for each distinct key of a regular object
    that is not also the key of a directory marker, the names being the
    final path components of the keys; both lists are sorted; entries
    tagged [BUCKET] change neither list. *)
Theorem walk_partitions_each_level
    (depth : nat) (fs : client) (path : string) (refresh : bool)
    (top : string) (directories files : list string) :
  (top, directories, files) ∈ (walk depth fs path refresh).1 →
  ∃ (q : string) (entries : list ls_entry),
    fs__ls fs q refresh = Ok entries
    ∧ directories ≡ₚ posixpath_split_tail <$> elements (directory_keys entries)
    ∧ length directories = size (directory_keys entries)
    ∧ Sorted String.le directories
    ∧ files ≡ₚ posixpath_split_tail <$>
                 elements (object_keys entries ∖ directory_keys entries)
    ∧ Sorted String.le files
    ∧ level_directories
        (walk_level q (filter (fun e => ¬ is_bucket_entry e) entries))
      = directories
    ∧ level_files
        (walk_level q (filter (fun e => ¬ is_bucket_entry e) entries))
      = files.
Proof.
  intros (q & entries & Hls & Hlevel)%walk_yields_levels.
  exists q, entries. split; [done|].
  pose proof (walk_level_partition q entries) as Hpart.
  by rewrite <- Hlevel in Hpart.
Qed.

(** The same on the listing of [bucket/key] that reports the marker of
    [sub] twice: one [sub] among the directories. *)
Lemma walk_partitions_each_level_witness :
  ∃ (q : string) (entries : list ls_entry),
    fs__ls nested_store q false = Ok entries
    ∧ ["sub"] ≡ₚ posixpath_split_tail <$> elements (directory_keys entries)
    ∧ length ["sub"] = size (directory_keys entries)
    ∧ Sorted String.le ["sub"]
    ∧ ["a.parquet"] ≡ₚ posixpath_split_tail <$>
                 elements (object_keys entries ∖ directory_keys entries)
    ∧ Sorted String.le ["a.parquet"]
    ∧ level_directories
        (walk_level q (filter (fun e => ¬ is_bucket_entry e) entries))
      = ["sub"]
    ∧ level_files
        (walk_level q (filter (fun e => ¬ is_bucket_entry e) entries))
      = ["a.parquet"].
Proof.
  apply (walk_partitions_each_level 3 nested_store "bucket/key" false
           "bucket/key/a.parquet" ["sub"] ["a.parquet"]).
  vm_compute. constructor.
Defined.

(** C1, on the store [nested_store], which holds [bucket/key/a.parquet] and
    [bucket/key/sub/b.parquet]: the walk of [bucket/key] yields two triples
    and ends.  The first names [bucket/key/a.parquet], the key listed last,
    where the prefix [bucket/key] is expected; the second is the listing of
    [sub], the bare name, where the subdirectory [bucket/key/sub] is
    expected, so that [b.parquet] is in no triple. *)
Theorem walk_nested_store :
  walk 3 nested_store "bucket/key" false
  = ([("bucket/key/a.parquet", ["sub"], ["a.parquet"]); ("sub", [], [])],
     Exhausted)
  ∧ fs__ls nested_store "bucket/key/sub" false
    = Ok [LsEntry "bucket/key/sub/b.parquet" "STANDARD"]
  ∧ (∀ t, t ∈ (walk 3 nested_store "bucket/key" false).1 →
          t.1.1 ≠ "bucket/key" ∧ t.1.1 ≠ "bucket/key/sub"
          ∧ "b.parquet" ∉ level_files t).
Proof.
  split; [by vm_compute|]. split; [reflexivity|].
  intros t Ht. vm_compute in Ht.
  apply elem_of_cons in Ht as [->|Ht]; [|apply elem_of_cons in Ht as [->|Ht]].
  - repeat split; [discriminate..|].
    unfold level_files. simpl. rewrite list_elem_of_singleton. discriminate.
  - repeat split; [discriminate..|].
    unfold level_files. simpl. apply not_elem_of_nil.
  - by apply elem_of_nil in Ht.
Qed.

End S3Facts.

(* ===================================================================== *)
(** * Properties of the local backend *)
(* ===================================================================== *)

Module LocalSpec.
Import Local.

(** The invariant of the file system: every entry sits in a directory. *)
Definition well_formed (st : fs_state) : Prop :=
  map_Forall (fun (p : list string) (_ : node_kind) =>
                match p with
                | [] => False
                | _ :: parent => lookup_path st parent = Found Directory
                end) st.

#[export] Instance lookup_result_eq_dec : EqDecision lookup_result.
Proof. solve_decision. Defined.

#[export] Instance well_formed_dec st : Decision (well_formed st).
Proof.
  unfold well_formed. apply map_Forall_dec. intros [|c parent] k; apply _.
Defined.

(** A path is written with names only: no component is empty, is [.] or
    [..], or holds a slash.  For such paths the entries of the state are the
    paths that the host resolves. *)
Definition proper_name (c : string) : Prop :=
  c ≠ "" ∧ c ≠ "." ∧ c ≠ ".."
  ∧ Forall (fun a => a ≠ "/"%char) (String.list_ascii_of_string c).

#[export] Instance proper_name_dec c : Decision (proper_name c).
Proof. unfold proper_name. apply _. Defined.



End LocalSpec.

Module LocalFacts.
Import Local LocalSpec.

Lemma lookup_path_cons st c parent :
  lookup_path st (c :: parent)
  = match lookup_path st parent with
    | Found Directory =>
        match st !! (c :: parent) with Some k => Found k | None => ENOENT end
    | Found File => ENOTDIR
    | err => err
    end.
Proof. reflexivity. Qed.


Lemma lookup_path_Found_entry st c parent k :
  lookup_path st (c :: parent) = Found k →
  lookup_path st parent = Found Directory ∧ st !! (c :: parent) = Some k.
Proof.
  rewrite lookup_path_cons.
  destruct (lookup_path st parent) as [[]| |]; try done.
  destruct (st !! (c :: parent)); naive_solver.
Qed.

(** Creating a directory keeps what already resolves. *)
Lemma lookup_path_insert_preserved st name q k :
  st !! name = None →
  lookup_path st q = Found k →
  lookup_path (<[name := Directory]> st) q = Found k.
Proof.
  intros Hfresh. revert k. induction q as [|c parent IH]; intros k; [done|].
  intros [Hparent Hq]%lookup_path_Found_entry.
  rewrite lookup_path_cons, (IH _ Hparent).
  rewrite lookup_insert_ne by congruence. by rewrite Hq.
Qed.


Lemma lookup_path_insert_new st c parent :
  lookup_path st parent = Found Directory →
  st !! (c :: parent) = None →
  lookup_path (<[c :: parent := Directory]> st) (c :: parent) = Found Directory.
Proof.
  intros Hparent Hfresh. rewrite lookup_path_cons.
  rewrite (lookup_path_insert_preserved _ _ _ _ Hfresh Hparent).
  by rewrite lookup_insert_eq.
Qed.

Lemma os_mkdir_exists st p k :
  lookup_path st p = Found k →
  os_mkdir st p = Raise (Exn FileExistsError "").
Proof.
  destruct p as [|c parent]; [done|].
  intros [Hparent Hp]%lookup_path_Found_entry.
  unfold os_mkdir. by rewrite Hparent, Hp.
Qed.

Lemma os_makedirs_exists st p k :
  lookup_path st p = Found k →
  os_makedirs st p = Raise (Exn FileExistsError "").
Proof.
  intros Hp. destruct p as [|c head]; [done|].
  pose proof Hp as [Hhead _]%lookup_path_Found_entry.
  cbn [os_makedirs]. unfold exists_. rewrite Hhead. cbn [negb].
  by apply (os_mkdir_exists _ _ k).
Qed.







End LocalFacts.

(* ===================================================================== *)
(** * Properties of the resolvers *)
(* ===================================================================== *)

Module ResolverSpec.
Import Resolver.

(** [c in s] for a character [c]. *)
Fixpoint has_char (c : ascii) (s : string) : bool :=
  match s with
  | "" => false
  | String a s' => bool_decide (a = c) || has_char c s'
  end.

(** The call returned the [LocalFileSystem] object [id] and left the state
    [st']: [id] is the one instance that [st'] records; it is the instance
    that [st] recorded, if there was one, and then the state is unchanged. *)
Definition is_singleton (st : interp) (id : nat) (st' : interp) : Prop :=
  _instance st' = Some id
  ∧ (∀ id0, _instance st = Some id0 → id0 = id ∧ st' = st).

(** The reading of the sentence on [_ensure_filesystem] under which an
    ancestor named [S3FileSystem] anywhere in the ancestry decides. *)
Definition s3_ancestor_always_wrapped : Prop :=
  ∀ (fs : pyobject) (st : interp),
    issubclass_FileSystem (obj_mro fs) = false →
    (∃ c, c ∈ obj_mro fs ∧ cls_name c = "S3FileSystem") →
    (_ensure_filesystem fs st).1 = Ok (S3FSWrapper fs).

(** An object of a class named [LocalFileSystem] that derives from a class
    named [S3FileSystem]. *)
Definition cached_s3 : pyobject :=
  PyObject 7 [PyClass "cache" "LocalFileSystem";
              PyClass "s3fs.core" "S3FileSystem";
              PyClass "builtins" "object"]
           "<class 'cache.LocalFileSystem'>".

(** An [s3fs] client, a [dask] local file system, an object of an unrelated
    class, a string, and an object of a subclass of
    [pyarrow.filesystem.FileSystem]. *)
Definition s3fs_client : pyobject :=
  PyObject 1 [PyClass "s3fs.core" "S3FileSystem";
              PyClass "builtins" "object"]
           "<class 's3fs.core.S3FileSystem'>".
Definition dask_local : pyobject :=
  PyObject 2 [PyClass "dask.bytes.local" "LocalFileSystem";
              PyClass "builtins" "object"]
           "<class 'dask.bytes.local.LocalFileSystem'>".
Definition stranger : pyobject :=
  PyObject 3 [PyClass "ftplib" "FTP"; PyClass "builtins" "object"]
           "<class 'ftplib.FTP'>".
Definition a_string : pyobject :=
  PyObject 5 [PyClass "builtins" "str"; PyClass "builtins" "object"]
           "<class 'str'>".
Definition arrow_hdfs : pyobject :=
  PyObject 4 [PyClass "pyarrow.hdfs" "HadoopFileSystem";
              FileSystem_cls; PyClass "builtins" "object"]
           "<class 'pyarrow.hdfs.HadoopFileSystem'>".

(** The interpreter before any [LocalFileSystem] was created. *)
Definition fresh : interp := {| _instance := None; next_id := 10 |}.

(** The library on the locations of the examples: [urlparse] splits the two
    distributed URIs and the local one, rejects [//[data/x.parquet] with
    [ValueError] and leaves any other text as a path without scheme;
    [isnumeric] holds of [9000] and of the superscript two; [int] reads
    [9000] and rejects any other text; [connect] gives the client. *)
Definition urlparse_examples (s : string) : result parse_result :=
  if decide (s = "hdfs://myhost:9000/data/x.parquet") then
    Ok (ParseResult "hdfs" "myhost:9000" "/data/x.parquet")
  else if decide (s = "hdfs://myhost:²/data/x.parquet") then
    Ok (ParseResult "hdfs" "myhost:²" "/data/x.parquet")
  else if decide (s = "file:///home/u/x.parquet") then
    Ok (ParseResult "file" "" "/home/u/x.parquet")
  else if decide (s = "//[data/x.parquet") then
    Raise (Exn ValueError "Invalid IPv6 URL")
  else Ok (ParseResult "" "" s).

Definition isnumeric_examples (s : string) : bool :=
  bool_decide (s = "9000") || bool_decide (s = "²").

Definition int_examples (s : string) : result Z :=
  if decide (s = "9000") then Ok 9000%Z
  else Raise (Exn ValueError
                ("invalid literal for int() with base 10: '" +:+ s +:+ "'")).

Definition library_examples : library :=
  Library urlparse_examples isnumeric_examples int_examples
          (fun host port => Ok (HadoopFileSystem host port)).

(** The exception of the stream-with-file-system combination. *)
Definition invalid_argument : exn :=
  Exn ValueError
    "filesystem passed but where is file-like, so there is nothing to open with filesystem.".






End ResolverSpec.

Module ResolverFacts.
Import Resolver ResolverSpec.

(** ** The singleton *)

Lemma get_instance_singleton st :
  ∃ id st', get_instance st = (Ok (LocalFileSystem id), st')
            ∧ is_singleton st id st'.
Proof.
  unfold get_instance, is_singleton.
  destruct (_instance st) as [id|] eqn:Hinst.
  - exists id, st. repeat split; [done|congruence..].
  - exists (next_id st), {| _instance := Some (next_id st);
                            next_id := S (next_id st) |}.
    repeat split; done.
Qed.

(** Two resolutions in a row give the same object. *)
Lemma get_instance_twice st id st' :
  get_instance st = (Ok (LocalFileSystem id), st') →
  get_instance st' = (Ok (LocalFileSystem id), st').
Proof.
  unfold get_instance. destruct (_instance st) as [id0|] eqn:Hinst.
  - intros [= <- <-]. by rewrite Hinst.
  - intros [= <- <-]. done.
Qed.

(** ** [_ensure_filesystem] *)

Lemma ensure_loop_skip fs before rest st :
  Forall (fun b => cls_name b ≠ "S3FileSystem"
                   ∧ cls_name b ≠ "LocalFileSystem") before →
  ensure_loop fs (before ++ rest) st = ensure_loop fs rest st.
Proof.
  induction 1 as [|b before [Hs3 Hlocal] _ IH]; [done|].
  simpl. by rewrite !decide_False.
Qed.

(** On an object whose class is named [LocalFileSystem] and derives from a
    class named [S3FileSystem], the loop stops at the first of the two names:
    the singleton is returned, not a wrapper. *)
Lemma cached_s3_is_local :
  _ensure_filesystem cached_s3 fresh
  = (Ok (LocalFileSystem 10), {| _instance := Some 10; next_id := 11 |})
  ∧ ¬ s3_ancestor_always_wrapped.
Proof.
  split; [reflexivity|].
  intros Hclaim. specialize (Hclaim cached_s3 fresh eq_refl).
  assert (Hs3 : ∃ c, c ∈ obj_mro cached_s3 ∧ cls_name c = "S3FileSystem").
  { exists (PyClass "s3fs.core" "S3FileSystem"). split; [|done].
    simpl. apply list_elem_of_further, list_elem_of_here. }
  specialize (Hclaim Hs3). discriminate Hclaim.
Qed.

(** C6, as the code has it.  An object whose type derives from
    [pyarrow.filesystem.FileSystem] is returned unchanged.  For any other
    object the first class of its ancestry, in method resolution order, that
    is named [S3FileSystem] or [LocalFileSystem] decides: the object is
    wrapped in an [S3FSWrapper] for the former, and the [LocalFileSystem]
    singleton is returned in its place for the latter.  When no class of the
    ancestry bears either name the call raises an [IOError] whose message
    ends with the text that the type formats to. *)
Theorem ensure_filesystem_cases (fs : pyobject) (st : interp) :
  (issubclass_FileSystem (obj_mro fs) = true →
     _ensure_filesystem fs st = (Ok (Unchanged fs), st))
  ∧ (issubclass_FileSystem (obj_mro fs) = false →
     ∀ before c after,
       obj_mro fs = before ++ c :: after →
       Forall (fun b => cls_name b ≠ "S3FileSystem"
                        ∧ cls_name b ≠ "LocalFileSystem") before →
       (cls_name c = "S3FileSystem" →
          _ensure_filesystem fs st = (Ok (S3FSWrapper fs), st))
       ∧ (cls_name c = "LocalFileSystem" →
          ∃ id st', _ensure_filesystem fs st = (Ok (LocalFileSystem id), st')
                    ∧ is_singleton st id st'))
  ∧ (issubclass_FileSystem (obj_mro fs) = false →
     Forall (fun b => cls_name b ≠ "S3FileSystem"
                      ∧ cls_name b ≠ "LocalFileSystem") (obj_mro fs) →
     _ensure_filesystem fs st
     = (Raise (Exn OSError ("Unrecognized filesystem: "
                            +:+ obj_type_format fs)), st)).
Proof.
  unfold _ensure_filesystem. split; [|split].
  - by intros ->.
  - intros -> before c after Hmro Hbefore. cbn [negb].
    rewrite Hmro, ensure_loop_skip by done. split.
    + intros Hc. simpl. by rewrite decide_True.
    + intros Hc. simpl. rewrite decide_False by (rewrite Hc; discriminate).
      rewrite decide_True by done. apply get_instance_singleton.
  - intros -> Hall. cbn [negb].
    rewrite <- (app_nil_r (obj_mro fs)) at 1.
    by rewrite ensure_loop_skip.
Qed.

Lemma ensure_filesystem_cases_witness :
  _ensure_filesystem arrow_hdfs fresh = (Ok (Unchanged arrow_hdfs), fresh)
  ∧ _ensure_filesystem s3fs_client fresh = (Ok (S3FSWrapper s3fs_client), fresh)
  ∧ (∃ id st', _ensure_filesystem dask_local fresh
               = (Ok (LocalFileSystem id), st') ∧ is_singleton fresh id st')
  ∧ _ensure_filesystem stranger fresh
    = (Raise (Exn OSError "Unrecognized filesystem: <class 'ftplib.FTP'>"),
       fresh)
  ∧ _ensure_filesystem a_string fresh
    = (Raise (Exn OSError "Unrecognized filesystem: <class 'str'>"), fresh).
Proof.
  split; [|split; [|split; [|split]]].
  - apply (proj1 (ensure_filesystem_cases arrow_hdfs fresh)). reflexivity.
  - apply (proj1 (proj2 (ensure_filesystem_cases s3fs_client fresh)) eq_refl
             [] (PyClass "s3fs.core" "S3FileSystem")
             [PyClass "builtins" "object"]);
      [reflexivity|constructor|reflexivity].
  - apply (proj1 (proj2 (ensure_filesystem_cases dask_local fresh)) eq_refl
             [] (PyClass "dask.bytes.local" "LocalFileSystem")
             [PyClass "builtins" "object"]);
      [reflexivity|constructor|reflexivity].
  - apply (proj2 (proj2 (ensure_filesystem_cases stranger fresh)) eq_refl).
    repeat constructor; discriminate.
  - apply (proj2 (proj2 (ensure_filesystem_cases a_string fresh)) eq_refl).
    repeat constructor; discriminate.
Defined.

(** ** [str.split] on an authority *)




(** ** [resolve_filesystem_and_path] *)

Section resolve_facts.
Variable lib : library.

(** C8: when [where] is not path-like, a call that also passes a file system
    raises [ValueError], and a call without one returns [(None, where)],
    the stream as it was given; the state is left as it was. *)
Theorem resolve_stream_like (where_ : pyinput) (st : interp) :
  _is_path_like where_ = false →
  (∀ filesystem,
     resolve_filesystem_and_path lib where_ (Some filesystem) st
     = (Raise invalid_argument, st))
  ∧ resolve_filesystem_and_path lib where_ None st
    = (Ok (None, where_), st).
Proof.
  intros Hw. unfold resolve_filesystem_and_path. rewrite Hw. by split.
Qed.

(** A [ValueError] of [urlparse] is the outcome of the resolution. *)
Lemma resolve_parse_error where_ path st e :
  where_ = Str path ∨ where_ = PathObject path →
  urlparse lib path = Raise e →
  resolve_filesystem_and_path lib where_ None st = (Raise e, st).
Proof.
  intros [-> | ->] Hparse; unfold resolve_filesystem_and_path;
    cbn [_is_path_like negb _stringify_path];
    unfold mbind, ret, lift; by rewrite Hparse.
Qed.


Lemma resolve_local where_ path u st :
  where_ = Str path ∨ where_ = PathObject path →
  urlparse lib path = Ok u →
  scheme u ≠ "hdfs" → scheme u ≠ "viewfs" →
  resolve_filesystem_and_path lib where_ None st
  = (let* fs := get_instance in
     ret (Some fs, if decide (scheme u = "file")
                   then Str (uri_path u) else where_)) st.
Proof.
  intros [-> | ->] Hparse Hh Hv; unfold resolve_filesystem_and_path;
    cbn [_is_path_like negb _stringify_path]; unfold mbind at 1, ret at 1;
    unfold mbind at 1, lift at 1; rewrite Hparse;
    rewrite !bool_decide_false by done; cbn [orb];
    by destruct (decide (scheme u = "file")).
Qed.






End resolve_facts.


Lemma resolve_stream_like_witness :
  resolve_filesystem_and_path library_examples (Stream 5) (Some s3fs_client)
    fresh = (Raise invalid_argument, fresh)
  ∧ resolve_filesystem_and_path library_examples (Stream 5) None fresh
    = (Ok (None, Stream 5), fresh).
Proof.
  pose proof (resolve_stream_like library_examples (Stream 5) fresh eq_refl)
    as [Hboth Hstream].
  split; [apply Hboth | apply Hstream].
Defined.


End ResolverFacts.

(* ===================================================================== *)
(** * Properties of [disk_usage] *)
(* ===================================================================== *)

Module UsageSpec.
Import Usage.

(** A directory tree as a backend holds it: the name and the path of the
    directory, its files with their sizes, and its subdirectories. *)
Inductive dirtree :=
| Dir (name root : string) (files : list (string * Z))
      (subdirs : list dirtree).

Definition dir_name (t : dirtree) : string :=
  match t with Dir name _ _ _ => name end.

(** The triples of a walk of the tree, parent first, each subdirectory with
    all its descendants before the next. *)
Fixpoint walk_of_tree (t : dirtree) : list triple :=
  match t with
  | Dir _ root files subdirs =>
      (root, dir_name <$> subdirs, fst <$> files)
      :: (fix descend (ds : list dirtree) : list triple :=
            match ds with
            | [] => []
            | d :: ds => walk_of_tree d ++ descend ds
            end) subdirs
  end.

Definition sum_sizes (files : list (string * Z)) : Z :=
  foldr (fun f acc => (f.2 + acc)%Z) 0%Z files.

(** The sizes of all the files of the tree, at any depth, added up. *)
Fixpoint tree_usage (t : dirtree) : Z :=
  match t with
  | Dir _ _ files subdirs =>
      (sum_sizes files
       + (fix descend (ds : list dirtree) : Z :=
            match ds with
            | [] => 0
            | d :: ds => tree_usage d + descend ds
            end) subdirs)%Z
  end.

(** [stat] succeeds on every file of the tree, at the path that joins the
    directory and the name, and reports the size the tree records. *)
Fixpoint stat_agrees {B} `{FileSystem B} (self : B) (t : dirtree) : Prop :=
  match t with
  | Dir _ root files subdirs =>
      Forall (fun f => ∃ info, stat self (_path_join self [root; f.1]) = Ok info
                               ∧ size info = f.2) files
      ∧ (fix descend (ds : list dirtree) : Prop :=
           match ds with
           | [] => True
           | d :: ds => stat_agrees self d ∧ descend ds
           end) subdirs
  end.

(** A backend given by the tables of its [stat] and [walk] results. *)
Record table_fs := TableFS {
  stats : list (string * stat_result);
  walks : list (string * list triple)
}.

Fixpoint assoc {A} (k : string) (l : list (string * A)) : option A :=
  match l with
  | [] => None
  | (k', a) :: l => if decide (k = k') then Some a else assoc k l
  end.

#[export] Instance table_fs_FileSystem : FileSystem table_fs := {
  stat self p :=
    match assoc p (stats self) with
    | Some info => Ok info
    | None => Raise (Exn FileNotFoundError p)
    end;
  walk self p :=
    match assoc p (walks self) with
    | Some tups => Ok tups
    | None => Raise (Exn FileNotFoundError p)
    end;
  pathsep _ := "/"
}.

(** [/data] holds [a.bin] (3 bytes) and [sub/b.bin] (4 bytes); [stat] gives
    each directory a size of its own. *)
Definition data_tree : dirtree :=
  Dir "data" "/data" [("a.bin", 3%Z)]
      [Dir "sub" "/data/sub" [("b.bin", 4%Z)] []].

Definition data_fs : table_fs :=
  TableFS
    [("/data", StatResult "directory" 4096);
     ("/data/a.bin", StatResult "file" 3);
     ("/data/sub", StatResult "directory" 4096);
     ("/data/sub/b.bin", StatResult "file" 4)]
    [("/data", [("/data", ["sub"], ["a.bin"]); ("/data/sub", [], ["b.bin"])])].

End UsageSpec.

Module UsageFacts.
Import Usage UsageSpec.

(** Induction on a tree, with the property at hand for the subdirectories. *)
Lemma dirtree_nested_ind (P : dirtree → Prop) :
  (∀ name root files subdirs,
     Forall P subdirs → P (Dir name root files subdirs)) →
  ∀ t, P t.
Proof.
  intros Hdir. fix ind 1. intros [name root files subdirs]. apply Hdir.
  induction subdirs as [|d subdirs IH]; constructor; [apply ind|apply IH].
Qed.

Section disk_usage_facts.
Context {B : Type} `{FileSystem B}.

Lemma add_files_sum (self : B) root (files : list (string * Z)) total :
  Forall (fun f => ∃ info, stat self (_path_join self [root; f.1]) = Ok info
                           ∧ size info = f.2) files →
  add_files self root (fst <$> files) total = Ok (total + sum_sizes files)%Z.
Proof.
  intros Hall. revert total.
  induction Hall as [|[name sz] files (info & Hstat & Hsize) _ IH]; intros total.
  - simpl. f_equal. lia.
  - cbn [fmap list_fmap add_files fst]. simpl in Hstat, Hsize. rewrite Hstat.
    cbn [bind]. rewrite IH, Hsize. unfold sum_sizes. simpl. f_equal. lia.
Qed.

Lemma add_triples_app (self : B) tups1 tups2 total :
  add_triples self (tups1 ++ tups2) total
  = bind (add_triples self tups1 total) (fun total' =>
      add_triples self tups2 total').
Proof.
  revert total. induction tups1 as [|[[root ds] files] tups1 IH]; intros total;
    [done|].
  simpl. destruct (add_files self root files total); simpl; [apply IH|done].
Qed.

Lemma add_triples_tree (self : B) (t : dirtree) :
  ∀ total, stat_agrees self t →
  add_triples self (walk_of_tree t) total = Ok (total + tree_usage t)%Z.
Proof.
  induction t as [name root files subdirs IH] using dirtree_nested_ind.
  intros total [Hfiles Hsubdirs].
  cbn [walk_of_tree add_triples tree_usage].
  rewrite (add_files_sum _ _ _ _ Hfiles). cbn [bind].
  rewrite Z.add_assoc. generalize (total + sum_sizes files)%Z as acc.
  induction IH as [|d subdirs Hd _ IHsubdirs]; intros acc.
  - simpl. f_equal. lia.
  - destruct Hsubdirs as [Hagree Hrest].
    rewrite add_triples_app, (Hd _ Hagree). cbn [bind].
    rewrite (IHsubdirs Hrest). f_equal. lia.
Qed.

(** C9: [disk_usage] of a path that [stat] reports as a file is the size
    that [stat] reports.  For any other path, when [walk] lists a directory
    tree and [stat] succeeds on each of its files, [disk_usage] is the sum
    of the sizes of all the files of the tree, at any depth; the directories
    themselves add nothing. *)
Theorem disk_usage_sums_files (self : B) (path : string) (info : stat_result) :
  stat self path = Ok info →
  (kind info = "file" → disk_usage self path = Ok (size info))
  ∧ (kind info ≠ "file" →
     ∀ t : dirtree,
       walk self path = Ok (walk_of_tree t) → stat_agrees self t →
       disk_usage self path = Ok (tree_usage t)).
Proof.
  intros Hstat. unfold disk_usage. rewrite Hstat. cbn [bind]. split.
  - intros Hfile. by rewrite decide_True.
  - intros Hdir t Hwalk Hagree. rewrite decide_False by done.
    rewrite Hwalk. cbn [bind]. by rewrite add_triples_tree.
Qed.

End disk_usage_facts.
Lemma disk_usage_sums_files_witness :
  disk_usage data_fs "/data/a.bin" = Ok 3%Z
  ∧ disk_usage data_fs "/data" = Ok 7%Z.
Proof.
  assert (Hfile : stat data_fs "/data/a.bin" = Ok (StatResult "file" 3))
    by (vm_compute; reflexivity).
  assert (Hdir : stat data_fs "/data" = Ok (StatResult "directory" 4096))
    by (vm_compute; reflexivity).
  split.
  - apply (proj1 (disk_usage_sums_files data_fs "/data/a.bin" _ Hfile)).
    reflexivity.
  - apply (proj2 (disk_usage_sums_files data_fs "/data" _ Hdir)
             ltac:(discriminate) data_tree).
    + vm_compute. reflexivity.
    + repeat split; repeat constructor; eexists; split;
        vm_compute; reflexivity.
Defined.

End UsageFacts.

(* ===================================================================== *)
(** * More on the object-store adapter *)
(* ===================================================================== *)

Module S3MoreSpec.
Import S3.

(** A bucket [data] that holds the pseudo-directory [data/data]. *)
Definition self_named_store : client :=
  Client (fun p => Ok [])
         (fun p _ => if decide (p = "data")
                     then Ok [LsEntry "data/data" "DIRECTORY"] else Ok []).

(** A store whose listings fail with a [ValueError]. *)
Definition broken_store : client :=
  Client (fun _ => Raise (Exn ValueError "bad listing"))
         (fun _ _ => Raise (Exn ValueError "bad listing")).

End S3MoreSpec.

Module S3MoreFacts.
Import S3 Scenarios S3Spec S3Facts ResolverSpec S3MoreSpec.

(** ** Exceptions of the probes *)

(** X1: [isdir] and [isfile] raise exactly when the listing raises an exception
    that is not an [OSError], and then they raise that exception. *)
Theorem probes_raise_only_foreign_errors (fs : client) (p : string) (e : exn) :
  (isdir fs p = Raise e ↔
     fs_ls fs (_sanitize_s3 p) = Raise e ∧ is_OSError (exn_cls e) = false)
  ∧ (isfile fs p = Raise e ↔
     fs_ls fs (_sanitize_s3 p) = Raise e ∧ is_OSError (exn_cls e) = false).
Proof.
  unfold isdir, isfile.
  destruct (fs_ls fs (_sanitize_s3 p)) as [contents|e'] eqn:Hls; simpl.
  - destruct (single_entry_is contents (_sanitize_s3 p));
      split; (split; [discriminate|intros [? _]; discriminate]).
  - destruct (is_OSError (exn_cls e')) eqn:He'; split; split;
      try discriminate.
    + intros [[= ->] ?]. congruence.
    + intros [[= ->] ?]. congruence.
    + intros [= ->]. done.
    + intros [[= ->] _]. done.
    + intros [= ->]. done.
    + intros [[= ->] _]. done.
Qed.

Lemma probes_raise_only_foreign_errors_witness :
  isdir broken_store "bucket/key" = Raise (Exn ValueError "bad listing")
  ∧ isfile broken_store "bucket/key" = Raise (Exn ValueError "bad listing").
Proof.
  pose proof (probes_raise_only_foreign_errors broken_store "bucket/key"
                (Exn ValueError "bad listing")) as [Hdir Hfile].
  split; [apply (proj2 Hdir) | apply (proj2 Hfile)]. all: (split; reflexivity).
Defined.

(** ** Sanitizing keys without a colon *)

Lemma prefix_app p s : String.prefix p s = true → ∃ rest, s = p +:+ rest.
Proof.
  revert s. induction p as [|a p IH]; intros s.
  - intros _. by exists s.
  - destruct s as [|b s]; [done|]. cbn [String.prefix].
    destruct (ascii_dec a b) as [->|]; [|done].
    intros [rest ->]%IH. exists rest. reflexivity.
Qed.

Lemma has_char_app c s1 s2 :
  has_char c (s1 +:+ s2) = has_char c s1 || has_char c s2.
Proof.
  induction s1 as [|a s1 IH]; [done|].
  change (String a s1 +:+ s2) with (String a (s1 +:+ s2)).
  cbn [has_char]. by rewrite IH, orb_assoc.
Qed.

Lemma no_colon_no_scheme s :
  has_char ":" s = false → String.prefix "s3://" s = false.
Proof.
  intros Hs. destruct (String.prefix "s3://" s) eqn:Hp; [|done].
  apply prefix_app in Hp as [rest ->].
  rewrite has_char_app in Hs. discriminate Hs.
Qed.

Lemma replace_go_no_colon s :
  has_char ":" s = false → replace_go "s3://" "" 0 s = s.
Proof.
  induction s as [|a s IH]; [done|]. intros Hs.
  cbn [replace_go]. rewrite (no_colon_no_scheme _ Hs).
  cbn [has_char] in Hs. apply orb_false_elim in Hs as [_ Hs].
  by rewrite (IH Hs).
Qed.

Lemma startswith_scheme k : startswith ("s3://" +:+ k) "s3://" = true.
Proof. unfold startswith. by destruct k. Qed.

Lemma replace_scheme_prefix k :
  replace ("s3://" +:+ k) "s3://" "" = replace k "s3://" "".
Proof.
  unfold replace.
  change ("s3://" +:+ k)
    with (String "s" (String "3" (String ":" (String "/" (String "/" k))))).
  cbn [replace_go].
  change (String "s" (String "3" (String ":" (String "/" (String "/" k)))))
    with ("s3://" +:+ k).
  pose proof (startswith_scheme k) as Hstart. unfold startswith in Hstart.
  rewrite Hstart. reflexivity.
Qed.

Lemma sanitize_no_colon k :
  has_char ":" k = false →
  _sanitize_s3 k = k ∧ _sanitize_s3 ("s3://" +:+ k) = k.
Proof.
  intros Hk. unfold _sanitize_s3. split.
  - unfold startswith. by rewrite (no_colon_no_scheme _ Hk).
  - rewrite startswith_scheme, replace_scheme_prefix.
    by apply replace_go_no_colon.
Qed.

(** X2: For a key without a colon, the scheme prefix makes no difference: the
    path with [s3://] in front is sanitized to the key, and the probes and
    [walk] answer on it as they do on the key. *)
Theorem scheme_prefix_is_transparent
    (fs : client) (k : string) (depth : nat) (refresh : bool) :
  has_char ":" k = false →
  _sanitize_s3 ("s3://" +:+ k) = k
  ∧ isdir fs ("s3://" +:+ k) = isdir fs k
  ∧ isfile fs ("s3://" +:+ k) = isfile fs k
  ∧ walk depth fs ("s3://" +:+ k) refresh = walk depth fs k refresh.
Proof.
  intros [Hplain Hscheme]%sanitize_no_colon.
  split; [done|]. unfold isdir, isfile. rewrite Hplain, Hscheme.
  split; [done|]. split; [done|].
  destruct depth as [|depth]; [done|]. cbn [walk]. by rewrite Hplain, Hscheme.
Qed.

Lemma scheme_prefix_is_transparent_witness :
  _sanitize_s3 "s3://bucket/key" = "bucket/key"
  ∧ isdir nested_store "s3://bucket/key" = isdir nested_store "bucket/key"
  ∧ isfile nested_store "s3://bucket/key" = isfile nested_store "bucket/key"
  ∧ walk 3 nested_store "s3://bucket/key" false
    = walk 3 nested_store "bucket/key" false.
Proof.
  apply (scheme_prefix_is_transparent nested_store "bucket/key" 3 false).
  reflexivity.
Defined.

(** ** The names that [walk] yields *)

Lemma slice_after_rfind c s i found :
  (found < i)%Z →
  let r := rfind_go c s i found in
  (has_char c s = false ∧ r = found)
  ∨ ((i ≤ r)%Z ∧ has_char c (slice_from (Z.to_nat (r - i + 1)) s) = false).
Proof.
  revert i found. induction s as [|a s IH]; intros i found Hlt; simpl.
  - by left.
  - destruct (decide (a = c)) as [->|Hne].
    + rewrite bool_decide_true by done. simpl.
      destruct (IH (i + 1)%Z i ltac:(lia)) as [[Hs ->]|[Hle Hs]]; right.
      * split; [lia|]. by replace (i - i + 1)%Z with 1%Z by lia.
      * split; [lia|].
        replace (Z.to_nat (rfind_go c s (i + 1) i - i + 1))
          with (S (Z.to_nat (rfind_go c s (i + 1) i - (i + 1) + 1))) by lia.
        done.
    + rewrite bool_decide_false by done. simpl.
      destruct (IH (i + 1)%Z found ltac:(lia)) as [[Hs ->]|[Hle Hs]].
      * by left.
      * right. split; [lia|].
        replace (Z.to_nat (rfind_go c s (i + 1) found - i + 1))
          with (S (Z.to_nat (rfind_go c s (i + 1) found - (i + 1) + 1)))
          by lia.
        done.
Qed.

(** The second component of [posixpath.split] holds no slash. *)
Lemma posixpath_split_tail_no_slash p :
  has_char "/" (posixpath_split_tail p) = false.
Proof.
  unfold posixpath_split_tail, rfind.
  destruct (slice_after_rfind "/" p 0 (-1) ltac:(lia)) as [[Hp ->]|[_ Hp]].
  - done.
  - by rewrite Z.sub_0_r in Hp.
Qed.

Lemma sorted_elem_of x l : x ∈ sorted l ↔ x ∈ l.
Proof. unfold sorted. by rewrite merge_sort_Permutation. Qed.

(** X3: Every name in the directories and the files of a triple that [walk]
    yields is a final path component: it holds no slash. *)
Theorem walk_names_have_no_slash
    (depth : nat) (fs : client) (path : string) (refresh : bool)
    (t : triple) (name : string) :
  t ∈ (walk depth fs path refresh).1 →
  name ∈ level_directories t ∨ name ∈ level_files t →
  has_char "/" name = false.
Proof.
  intros (q & entries & _ & ->)%walk_yields_levels.
  rewrite walk_level_eq. unfold level_directories, level_files. simpl.
  rewrite !sorted_elem_of, !list_elem_of_fmap.
  intros [(k & -> & _)|(k & -> & _)]; apply posixpath_split_tail_no_slash.
Qed.

Lemma walk_names_have_no_slash_witness :
  has_char "/" "a.parquet" = false.
Proof.
  apply (walk_names_have_no_slash 3 nested_store "bucket/key" false
           ("bucket/key/a.parquet", ["sub"], ["a.parquet"]) "a.parquet").
  - vm_compute. constructor.
  - right. vm_compute. constructor.
Defined.

(** ** The first component of a triple *)

(** X4: The first triple that [walk] yields for a path is built from the
    listing of the sanitized path, and its first component is the key of the
    last entry of that listing, whatever the storage class of the entry; it
    is the sanitized path when the listing is empty. *)
Theorem walk_first_component_is_last_key
    (depth : nat) (fs : client) (path : string) (refresh : bool)
    (entries : list ls_entry) :
  fs__ls fs (_sanitize_s3 path) refresh = Ok entries →
  ∃ directories files rest e,
    walk (S depth) fs path refresh
    = ((default (_sanitize_s3 path) (Key <$> last entries),
        directories, files) :: rest, e).
Proof.
  intros Hls. cbn [walk]. rewrite Hls, walk_level_eq, last_key_last.
  destruct (walk_children _ _) as [rest e]. by eexists _, _, _, _.
Qed.

Lemma walk_first_component_is_last_key_witness :
  ∃ directories files rest e,
    walk 3 nested_store "bucket/key" false
    = (("bucket/key/a.parquet", directories, files) :: rest, e).
Proof.
  apply (walk_first_component_is_last_key 2 nested_store "bucket/key" false
           [LsEntry "bucket/key/sub" "DIRECTORY";
            LsEntry "bucket/key/sub" "DIRECTORY";
            LsEntry "bucket/key/a.parquet" "STANDARD"]).
  reflexivity.
Defined.

(** ** How a walk ends *)

Lemma walk_children_raised (rec : string → run) ds e :
  (walk_children rec ds).2 = Raised e →
  ∃ d, d ∈ ds ∧ (rec d).2 = Raised e
       ∧ ∀ t, t ∈ (rec d).1 → t ∈ (walk_children rec ds).1.
Proof.
  induction ds as [|d ds IH]; simpl; [done|].
  destruct (rec d) as [tups [|e'|]] eqn:Hd.
  - destruct (walk_children rec ds) as [tups' e''] eqn:Hrest. simpl in *.
    intros (d' & Hd' & Hraised & Hsub)%IH. exists d'.
    split; [by right|]. split; [done|].
    intros t Ht. apply elem_of_app. right. by apply Hsub.
  - simpl. intros [= ->]. exists d. rewrite Hd. split; [by left|done].
  - done.
Qed.

(** X5: When a walk ends with an exception, the interpreter's
    [RecursionError] for too deep a nesting apart, that exception was raised
    by the listing of the sanitized path given to [walk], or by the listing
    of the sanitized name of a directory in one of the triples that the
    walk yielded. *)
Theorem walk_raises_only_listing_errors
    (depth : nat) (fs : client) (path : string) (refresh : bool) (e : exn) :
  (walk depth fs path refresh).2 = Raised e →
  ∃ a, (a = path
        ∨ ∃ t, t ∈ (walk depth fs path refresh).1 ∧ a ∈ level_directories t)
       ∧ fs__ls fs (_sanitize_s3 a) refresh = Raise e.
Proof.
  revert path. induction depth as [|depth IH]; intros path; [done|].
  cbn [walk].
  destruct (fs__ls fs (_sanitize_s3 path) refresh) as [entries|e'] eqn:Hls.
  - destruct (walk_level (_sanitize_s3 path) entries) as [[top ds] files].
    pose proof (walk_children_raised
                  (fun directory => walk depth fs directory refresh) ds e)
      as Hraised.
    destruct (walk_children _ ds) as [tups e'']. simpl in *. intros ->.
    destruct (Hraised eq_refl) as (d & Hd & Hend & Hsub).
    destruct (IH d Hend) as (a & Ha & Hlist). exists a. split; [|done].
    right. destruct Ha as [->|(t & Ht & Hat)].
    + exists (top, ds, files). split; [by left|done].
    + exists t. split; [|done]. right. by apply Hsub.
  - simpl. intros [= ->]. exists path. split; [by left|done].
Qed.

Lemma walk_raises_only_listing_errors_witness :
  ∃ a, (a = "bucket/key"
        ∨ ∃ t, t ∈ (walk 2 broken_store "bucket/key" false).1
               ∧ a ∈ level_directories t)
       ∧ fs__ls broken_store (_sanitize_s3 a) false
         = Raise (Exn ValueError "bad listing").
Proof.
  apply (walk_raises_only_listing_errors 2 broken_store "bucket/key" false).
  reflexivity.
Defined.

(** ** Listings without directory markers *)

Lemma directory_keys_none entries :
  Forall (fun e => StorageClass e ≠ "DIRECTORY") entries →
  directory_keys entries = ∅.
Proof.
  intros Hall. apply set_eq. intros k. rewrite elem_of_directory_keys.
  split; [|by intros ?%not_elem_of_empty].
  intros (e & He & _ & Hd). rewrite Forall_forall in Hall.
  by destruct (Hall e He).
Qed.

(** X6: When the listing of the path holds no directory marker, [walk] yields
    one triple, with no directories, and is exhausted: nothing else is
    listed.  On an empty listing the triple is the sanitized path with no
    names. *)
Theorem walk_without_directories
    (depth : nat) (fs : client) (path : string) (refresh : bool)
    (entries : list ls_entry) :
  fs__ls fs (_sanitize_s3 path) refresh = Ok entries →
  Forall (fun e => StorageClass e ≠ "DIRECTORY") entries →
  (∃ top files,
     walk (S depth) fs path refresh = ([(top, [], files)], Exhausted))
  ∧ (entries = [] →
     walk (S depth) fs path refresh
     = ([(_sanitize_s3 path, [], [])], Exhausted)).
Proof.
  intros Hls Hnone. cbn [walk]. rewrite Hls, walk_level_eq.
  rewrite (directory_keys_none _ Hnone), elements_empty.
  change (sorted (posixpath_split_tail <$> [])) with (@nil string).
  split.
  - by eexists _, _.
  - intros ->. reflexivity.
Qed.

Lemma walk_without_directories_witness :
  (∃ top files,
     walk 1 nested_store "bucket/key/sub" false
     = ([(top, [], files)], Exhausted))
  ∧ walk 1 empty_store "s3://bucket" false = ([("bucket", [], [])], Exhausted).
Proof.
  split.
  - apply (walk_without_directories 0 nested_store "bucket/key/sub" false
             [LsEntry "bucket/key/sub/b.parquet" "STANDARD"]).
    + reflexivity.
    + repeat constructor. discriminate.
  - apply (walk_without_directories 0 empty_store "s3://bucket" false []);
      [reflexivity|constructor|reflexivity].
Defined.

(** ** Directories named like the path that is listed *)

Lemma walk_children_not_exhausted (rec : string → run) ds d :
  d ∈ ds → (rec d).2 ≠ Exhausted → (walk_children rec ds).2 ≠ Exhausted.
Proof.
  intros Hd Hrec. induction ds as [|d' ds IH]; [by apply elem_of_nil in Hd|].
  simpl. destruct (rec d') as [tups e] eqn:Hd'.
  apply elem_of_cons in Hd as [->|Hd].
  - rewrite Hd' in Hrec. simpl in Hrec. by destruct e.
  - destruct e; [|done..].
    destruct (walk_children rec ds) as [tups' e']. simpl in *. by apply IH.
Qed.

(** X7: [walk] recurses on the bare names of the directories.  So when the
    listing of [q] holds a directory marker whose final component is [q]
    itself, the walk of [q] asks for the listing of [q] again and again: at
    no depth of recursion is the generator exhausted. *)
Theorem walk_self_named_directory
    (fs : client) (q : string) (refresh : bool) (entries : list ls_entry) :
  _sanitize_s3 q = q →
  fs__ls fs q refresh = Ok entries →
  q ∈ level_directories (walk_level q entries) →
  ∀ depth, (walk depth fs q refresh).2 ≠ Exhausted.
Proof.
  intros Hq Hls Hself depth. induction depth as [|depth IH]; [done|].
  cbn [walk]. rewrite Hq, Hls.
  destruct (walk_level q entries) as [[top ds] files].
  unfold level_directories in Hself. simpl in Hself.
  pose proof (walk_children_not_exhausted
                (fun directory => walk depth fs directory refresh) ds q
                Hself IH) as Hch.
  destruct (walk_children _ ds) as [tups e]. done.
Qed.

Lemma walk_self_named_directory_witness :
  fs__ls self_named_store "data" false = Ok [LsEntry "data/data" "DIRECTORY"]
  ∧ (walk 5 self_named_store "data" false).2 ≠ Exhausted.
Proof.
  split; [reflexivity|].
  apply (walk_self_named_directory self_named_store "data" false
           [LsEntry "data/data" "DIRECTORY"]).
  - reflexivity.
  - reflexivity.
  - vm_compute. constructor.
Defined.

End S3MoreFacts.

(* ===================================================================== *)
(** * More on the local backend *)
(* ===================================================================== *)

Module LocalOpsSpec.
Import Local LocalOps.

(** A file system with the directory [/data], the file [/data/a.bin] and
    nothing else. *)
Definition data_with_file : fs_state :=
  {[ ["data"] := Directory; ["a.bin"; "data"] := File ]}.

(** Two hosts that list the directory [/data] in different orders. *)
Definition listdir_ab (p : string) : result (list string) :=
  if decide (p = "/data") then Ok ["b.bin"; "a.bin"; "sub"]
  else Raise (Exn FileNotFoundError p).
Definition listdir_ba (p : string) : result (list string) :=
  if decide (p = "/data") then Ok ["sub"; "b.bin"; "a.bin"]
  else Raise (Exn FileNotFoundError p).

End LocalOpsSpec.

Module LocalOpsFacts.
Import Local LocalSpec LocalFacts LocalOps LocalOpsSpec.

(** ** What a successful [mkdir] leaves behind *)

Lemma os_mkdir_ok st name st' :
  os_mkdir st name = Ok st' →
  ∃ c parent, name = c :: parent
    ∧ lookup_path st parent = Found Directory
    ∧ st !! name = None
    ∧ st' = <[name := Directory]> st.
Proof.
  destruct name as [|c parent]; [done|]. unfold os_mkdir.
  destruct (lookup_path st parent) as [[]| |] eqn:Hparent; try done.
  destruct (st !! (c :: parent)) eqn:Hname; [done|].
  intros [= <-]. by exists c, parent.
Qed.

Lemma os_mkdir_effect st name st' :
  os_mkdir st name = Ok st' →
  lookup_path st' name = Found Directory
  ∧ (∀ q k, lookup_path st q = Found k → lookup_path st' q = Found k)
  ∧ (well_formed st → well_formed st').
Proof.
  intros (c & parent & -> & Hparent & Hfresh & ->)%os_mkdir_ok.
  split; [by apply lookup_path_insert_new|]. split.
  - intros q k. by apply lookup_path_insert_preserved.
  - intros Hwf q k. destruct (decide (q = c :: parent)) as [->|Hne].
    + intros _. by apply lookup_path_insert_preserved.
    + rewrite lookup_insert_ne by done. intros Hq.
      pose proof (Hwf q k Hq) as Hq'. destruct q as [|c' parent']; [done|].
      by apply lookup_path_insert_preserved.
Qed.

Lemma os_makedirs_effect st name st' :
  os_makedirs st name = Ok st' →
  lookup_path st' name = Found Directory
  ∧ (∀ q k, lookup_path st q = Found k → lookup_path st' q = Found k)
  ∧ (well_formed st → well_formed st').
Proof.
  revert st st'. induction name as [|c head IH]; intros st st'; [done|].
  cbn [os_makedirs]. destruct (negb (exists_ st head)).
  - destruct (os_makedirs st head) as [st1|e] eqn:Hhead.
    + destruct (IH _ _ Hhead) as (_ & Hkeep1 & Hwf1).
      intros (Hnew & Hkeep & Hwf)%os_mkdir_effect. repeat split; auto.
    + destruct (decide (exn_cls e = FileExistsError)); [|done].
      apply os_mkdir_effect.
  - apply os_mkdir_effect.
Qed.

(** X8: After [mkdir] has returned, in either mode, the path is a directory:
    [isdir] and [exists] answer [True] on it and [isfile] answers [False];
    the probes answer on every other path what they answered before when
    that was [True]; and a second [mkdir] of the path, in either mode,
    raises [FileExistsError]. *)
Theorem mkdir_then_probes
    (st st' : fs_state) (p : list string) (create_parents : bool) :
  mkdir st p create_parents = Ok st' →
  isdir st' p = true ∧ exists' st' p = true ∧ isfile st' p = false
  ∧ (∀ q, isdir st q = true → isdir st' q = true)
  ∧ (∀ q, isfile st q = true → isfile st' q = true)
  ∧ (∀ again, mkdir st' p again = Raise (Exn FileExistsError "")).
Proof.
  intros Hmk.
  assert (Heffect : lookup_path st' p = Found Directory
                    ∧ ∀ q k, lookup_path st q = Found k
                             → lookup_path st' q = Found k).
  { unfold mkdir in Hmk. destruct create_parents.
    - by apply os_makedirs_effect in Hmk as (? & ? & _).
    - by apply os_mkdir_effect in Hmk as (? & ? & _). }
  destruct Heffect as [Hnew Hkeep].
  unfold isdir, isfile, exists', exists_. rewrite Hnew.
  repeat split.
  - intros q. destruct (lookup_path st q) as [[]| |] eqn:Hq; try done.
    by rewrite (Hkeep _ _ Hq).
  - intros q. destruct (lookup_path st q) as [[]| |] eqn:Hq; try done.
    by rewrite (Hkeep _ _ Hq).
  - intros [|]; unfold mkdir.
    + by apply (os_makedirs_exists _ _ Directory).
    + by apply (os_mkdir_exists _ _ Directory).
Qed.

Lemma mkdir_then_probes_witness :
  ∃ st', mkdir data_with_file ["x"; "u"; "data"] true = Ok st'
    ∧ isdir st' ["x"; "u"; "data"] = true
    ∧ isfile st' ["a.bin"; "data"] = true
    ∧ mkdir st' ["x"; "u"; "data"] true = Raise (Exn FileExistsError "").
Proof.
  destruct (mkdir data_with_file ["x"; "u"; "data"] true) as [st'|e] eqn:Hmk;
    [|by vm_compute in Hmk].
  exists st'. split; [done|].
  destruct (mkdir_then_probes data_with_file st' ["x"; "u"; "data"] true Hmk)
    as (Hdir & _ & _ & _ & Hfile & Hagain).
  split; [done|]. split; [|apply Hagain]. apply Hfile. by vm_compute.
Defined.

(** X16: [mkdir] keeps the invariant of the file system: in the state it
    returns, as in the state it was given, every entry sits in a
    directory. *)
Theorem mkdir_keeps_well_formed
    (st st' : fs_state) (p : list string) (create_parents : bool) :
  well_formed st → mkdir st p create_parents = Ok st' → well_formed st'.
Proof.
  intros Hwf Hmk. unfold mkdir in Hmk. destruct create_parents.
  - apply os_makedirs_effect in Hmk as (_ & _ & Hwf'). auto.
  - apply os_mkdir_effect in Hmk as (_ & _ & Hwf'). auto.
Qed.

Lemma mkdir_keeps_well_formed_witness :
  ∃ st', mkdir data_with_file ["x"; "u"; "data"] true = Ok st'
         ∧ well_formed st'.
Proof.
  destruct (mkdir data_with_file ["x"; "u"; "data"] true) as [st'|e] eqn:Hmk;
    [|by vm_compute in Hmk].
  exists st'. split; [done|].
  apply (mkdir_keeps_well_formed data_with_file st' ["x"; "u"; "data"] true);
    [|done].
  apply (bool_decide_unpack _). by vm_compute.
Defined.

(** ** A file in the way *)

Lemma os_mkdir_under_file st c parent :
  lookup_path st (c :: parent) = ENOTDIR →
  os_mkdir st (c :: parent) = Raise (Exn NotADirectoryError "").
Proof.
  rewrite lookup_path_cons. unfold os_mkdir.
  destruct (lookup_path st parent) as [[]| |]; try done.
  by destruct (st !! (c :: parent)).
Qed.

(** X9: When an ancestor of the path is a file, [mkdir] raises
    [NotADirectoryError] in both modes, whether or not parents are to be
    created. *)
Theorem mkdir_under_file
    (st : fs_state) (p : list string) (create_parents : bool) :
  lookup_path st p = ENOTDIR →
  mkdir st p create_parents = Raise (Exn NotADirectoryError "").
Proof.
  intros Hp. unfold mkdir. destruct create_parents.
  - induction p as [|c head IH]; [done|].
    cbn [os_makedirs]. unfold exists_.
    pose proof Hp as Hp'. rewrite lookup_path_cons in Hp'.
    destruct (lookup_path st head) as [[]| |] eqn:Hhead; try done; cbn [negb].
    + by apply os_mkdir_under_file.
    + by destruct (st !! (c :: head)).
    + by rewrite (IH eq_refl).
  - destruct p as [|c parent]; [done|]. by apply os_mkdir_under_file.
Qed.

Lemma mkdir_under_file_witness :
  mkdir data_with_file ["x"; "a.bin"; "data"] true
  = Raise (Exn NotADirectoryError "")
  ∧ mkdir data_with_file ["y"; "x"; "a.bin"; "data"] false
    = Raise (Exn NotADirectoryError "").
Proof.
  split.
  - apply (mkdir_under_file data_with_file ["x"; "a.bin"; "data"] true).
    by vm_compute.
  - apply (mkdir_under_file data_with_file ["y"; "x"; "a.bin"; "data"] false).
    by vm_compute.
Defined.

(** ** [ls] *)

(** X10: [ls] gives the joined paths of the names that the host lists, in
    ascending order; the result does not depend on the order in which the
    host lists them; and an error of the host is the error of [ls]. *)
Theorem ls_sorted_whatever_the_host_order
    (listdir1 listdir2 : string → result (list string))
    (path : string) (names1 names2 : list string) :
  listdir1 path = Ok names1 →
  listdir2 path = Ok names2 →
  names1 ≡ₚ names2 →
  (∃ l, ls listdir1 path = Ok l
        ∧ Sorted String.le l ∧ l ≡ₚ pjoin path <$> names1)
  ∧ ls listdir1 path = ls listdir2 path.
Proof.
  intros H1 H2 Hperm. unfold ls. rewrite H1, H2. simpl. split.
  - eexists. split; [done|]. unfold sorted.
    split; [apply (Sorted_merge_sort _)|apply merge_sort_Permutation].
  - f_equal. unfold sorted. apply (Sorted_unique String.le).
    + apply (Sorted_merge_sort _).
    + apply (Sorted_merge_sort _).
    + by rewrite !merge_sort_Permutation, Hperm.
Qed.

Lemma ls_sorted_whatever_the_host_order_witness :
  (∃ l, ls listdir_ab "/data" = Ok l
        ∧ Sorted String.le l
        ∧ l ≡ₚ pjoin "/data" <$> ["b.bin"; "a.bin"; "sub"])
  ∧ ls listdir_ab "/data" = ls listdir_ba "/data".
Proof.
  apply (ls_sorted_whatever_the_host_order listdir_ab listdir_ba "/data"
           ["b.bin"; "a.bin"; "sub"] ["sub"; "b.bin"; "a.bin"]).
  - reflexivity.
  - reflexivity.
  - symmetry. apply (Permutation_cons_append ["b.bin"; "a.bin"] "sub").
Defined.

End LocalOpsFacts.

(* ===================================================================== *)
(** * More on the resolvers *)
(* ===================================================================== *)

Module ResolverMoreFacts.
Import Resolver ResolverSpec ResolverFacts.

(** ** One singleton for all resolutions *)

Lemma get_instance_stable st id :
  _instance st = Some id → get_instance st = (Ok (LocalFileSystem id), st).
Proof. intros Hid. unfold get_instance. by rewrite Hid. Qed.

(** X11: Two resolutions in a row of locations that [urlparse] accepts and
    that are not distributed URIs return the same [LocalFileSystem] object,
    and so does the resolution of a foreign object whose class is named
    [LocalFileSystem]; once the object exists the state no longer
    changes. *)
Theorem resolutions_share_the_singleton
    (lib : library)
    (w1 w2 : pyinput) (p1 p2 : string) (u1 u2 : parse_result) (st : interp) :
  w1 = Str p1 ∨ w1 = PathObject p1 →
  w2 = Str p2 ∨ w2 = PathObject p2 →
  urlparse lib p1 = Ok u1 → urlparse lib p2 = Ok u2 →
  scheme u1 ≠ "hdfs" → scheme u1 ≠ "viewfs" →
  scheme u2 ≠ "hdfs" → scheme u2 ≠ "viewfs" →
  ∃ id st1 path1 path2,
    resolve_filesystem_and_path lib w1 None st
    = (Ok (Some (LocalFileSystem id), path1), st1)
    ∧ resolve_filesystem_and_path lib w2 None st1
      = (Ok (Some (LocalFileSystem id), path2), st1)
    ∧ (∀ fs c rest,
         issubclass_FileSystem (obj_mro fs) = false →
         obj_mro fs = c :: rest → cls_name c = "LocalFileSystem" →
         _ensure_filesystem fs st1 = (Ok (LocalFileSystem id), st1)).
Proof.
  intros Hw1 Hw2 Hu1 Hu2 Hh1 Hv1 Hh2 Hv2.
  destruct (get_instance_singleton st) as (id & st1 & Hget & Hinst & _).
  pose proof (get_instance_stable st1 id Hinst) as Hget1.
  exists id, st1. eexists _, _. split; [|split].
  - rewrite (resolve_local lib _ _ _ _ Hw1 Hu1 Hh1 Hv1).
    unfold mbind. by rewrite Hget.
  - rewrite (resolve_local lib _ _ _ _ Hw2 Hu2 Hh2 Hv2).
    unfold mbind. by rewrite Hget1.
  - intros fs c rest Hsub Hmro Hc. unfold _ensure_filesystem.
    rewrite Hsub, Hmro. cbn [negb ensure_loop].
    rewrite decide_False by (rewrite Hc; discriminate).
    by rewrite decide_True.
Qed.

Lemma resolutions_share_the_singleton_witness :
  ∃ id st1 path1 path2,
    resolve_filesystem_and_path library_examples
      (Str "/home/u/x.parquet") None fresh
    = (Ok (Some (LocalFileSystem id), path1), st1)
    ∧ resolve_filesystem_and_path library_examples
        (PathObject "file:///home/u/x.parquet") None st1
      = (Ok (Some (LocalFileSystem id), path2), st1)
    ∧ (∀ fs c rest,
         issubclass_FileSystem (obj_mro fs) = false →
         obj_mro fs = c :: rest → cls_name c = "LocalFileSystem" →
         _ensure_filesystem fs st1 = (Ok (LocalFileSystem id), st1)).
Proof.
  apply (resolutions_share_the_singleton library_examples
           (Str "/home/u/x.parquet") (PathObject "file:///home/u/x.parquet")
           "/home/u/x.parquet" "file:///home/u/x.parquet"
           (ParseResult "" "" "/home/u/x.parquet")
           (ParseResult "file" "" "/home/u/x.parquet") fresh);
    [by left|by right|reflexivity|reflexivity|discriminate..].
Defined.

(** ** An explicit file system *)

(** X12: When a file system is passed, the location is not parsed: the
    outcome is the same for any library, and for a file system that derives
    from [FileSystem] it is that file system with the path as it was
    written, scheme and authority included. *)
Theorem explicit_filesystem_skips_parsing
    (lib1 lib2 : library)
    (where_ : pyinput) (fs : pyobject) (st : interp) :
  resolve_filesystem_and_path lib1 where_ (Some fs) st
  = resolve_filesystem_and_path lib2 where_ (Some fs) st
  ∧ (∀ path,
       where_ = Str path ∨ where_ = PathObject path →
       issubclass_FileSystem (obj_mro fs) = true →
       resolve_filesystem_and_path lib1 where_ (Some fs) st
       = (Ok (Some (Unchanged fs), Str path), st)).
Proof.
  split.
  - by destruct where_.
  - intros path [-> | ->] Hsub; unfold resolve_filesystem_and_path;
      cbn [_is_path_like negb _stringify_path];
      unfold mbind, ret, _ensure_filesystem; by rewrite Hsub.
Qed.

Lemma explicit_filesystem_skips_parsing_witness :
  resolve_filesystem_and_path library_examples
    (Str "hdfs://myhost:9000/data/x.parquet") (Some arrow_hdfs) fresh
  = (Ok (Some (Unchanged arrow_hdfs),
         Str "hdfs://myhost:9000/data/x.parquet"), fresh).
Proof.
  apply (proj2 (explicit_filesystem_skips_parsing library_examples
                  library_examples (Str "hdfs://myhost:9000/data/x.parquet")
                  arrow_hdfs fresh) "hdfs://myhost:9000/data/x.parquet").
  - by left.
  - reflexivity.
Defined.

(** ** The arguments of [pa.hdfs.connect] *)





End ResolverMoreFacts.

(* ===================================================================== *)
(** * More on [disk_usage] *)
(* ===================================================================== *)

Module UsageMoreSpec.
Import Usage UsageSpec.

Section listed.
Context {B : Type} `{FileSystem B}.

(** The paths that [disk_usage] passes to [stat] for one triple, and for
    all the triples of a walk, in the order of the calls. *)
Definition triple_files (self : B) (t : triple) : list string :=
  (fun child_path => _path_join self [t.1.1; child_path]) <$> t.2.

Definition listed_files (self : B) (tups : list triple) : list string :=
  tups ≫= triple_files self.

(** The size that [stat] reports for a path. *)
Definition stat_size (self : B) (p : string) : Z :=
  match stat self p with
  | Ok info => size info
  | Raise _ => 0%Z
  end.

Definition total_size (self : B) (paths : list string) : Z :=
  foldr (fun p acc => (stat_size self p + acc)%Z) 0%Z paths.

End listed.

(** A backend whose walk lists [/data/sub] before [/data], and a backend
    in which [stat] fails on [/data/sub/b.bin]. *)
Definition data_fs_reordered : list triple :=
  [("/data/sub", [], ["b.bin"]); ("/data", ["sub"], ["a.bin"])].

Definition data_fs_unreadable : table_fs :=
  TableFS
    [("/data", StatResult "directory" 4096);
     ("/data/a.bin", StatResult "file" 3);
     ("/data/sub", StatResult "directory" 4096)]
    [("/data", [("/data", ["sub"], ["a.bin"]); ("/data/sub", [], ["b.bin"])])].

End UsageMoreSpec.

Module UsageMoreFacts.
Import Usage UsageSpec UsageMoreSpec.

Section disk_usage_more.
Context {B : Type} `{FileSystem B}.

Lemma total_size_app (self : B) l1 l2 :
  total_size self (l1 ++ l2)
  = (total_size self l1 + total_size self l2)%Z.
Proof.
  unfold total_size. induction l1 as [|p l1 IH]; simpl; [done|].
  rewrite IH. lia.
Qed.

Lemma total_size_perm (self : B) l1 l2 :
  l1 ≡ₚ l2 → total_size self l1 = total_size self l2.
Proof.
  unfold total_size. induction 1; simpl; lia.
Qed.

Lemma add_files_total (self : B) root files total :
  Forall (fun p => ∃ info, stat self p = Ok info)
         (triple_files self (root, [], files)) →
  add_files self root files total
  = Ok (total + total_size self (triple_files self (root, [], files)))%Z.
Proof.
  unfold triple_files. simpl. revert total.
  induction files as [|f files IH]; intros total Hall.
  - simpl. f_equal. lia.
  - rewrite fmap_cons in Hall. apply Forall_cons in Hall as [[info Hf] Hall].
    cbn [add_files]. rewrite Hf. cbn [bind]. rewrite (IH _ Hall).
    rewrite fmap_cons. unfold total_size at 2. cbn [foldr].
    unfold stat_size at 1. rewrite Hf. f_equal. unfold total_size. lia.
Qed.

Lemma add_triples_total (self : B) tups total :
  Forall (fun p => ∃ info, stat self p = Ok info) (listed_files self tups) →
  add_triples self tups total
  = Ok (total + total_size self (listed_files self tups))%Z.
Proof.
  revert total. induction tups as [|[[root ds] files] tups IH]; intros total.
  - intros _. simpl. f_equal. unfold total_size. simpl. lia.
  - unfold listed_files. rewrite bind_cons. intros [Hhere Hrest]%Forall_app.
    cbn [add_triples].
    rewrite (add_files_total self root files total Hhere). cbn [bind].
    rewrite (IH _ Hrest), total_size_app. f_equal.
    unfold listed_files, triple_files. simpl. lia.
Qed.

(** X14: For a path that is not a file, [disk_usage] is the sum of the sizes
    that [stat] reports for the paths [root/name] of the files that [walk]
    lists, a path counting once for each time it is listed; the order of
    the triples and their grouping do not matter. *)
Theorem disk_usage_sums_listed_files
    (self : B) (path : string) (info : stat_result) (tups : list triple) :
  stat self path = Ok info → kind info ≠ "file" →
  walk self path = Ok tups →
  Forall (fun p => ∃ i, stat self p = Ok i) (listed_files self tups) →
  disk_usage self path = Ok (total_size self (listed_files self tups))
  ∧ (∀ tups', listed_files self tups' ≡ₚ listed_files self tups →
       add_triples self tups' 0 = disk_usage self path).
Proof.
  intros Hstat Hkind Hwalk Hall.
  assert (Hdu : disk_usage self path
                = Ok (total_size self (listed_files self tups))).
  { unfold disk_usage. rewrite Hstat. cbn [bind].
    rewrite decide_False by done. rewrite Hwalk. cbn [bind].
    rewrite (add_triples_total _ _ _ Hall). f_equal; lia. }
  split; [done|]. intros tups' Hperm. rewrite Hdu.
  rewrite add_triples_total by (by rewrite Hperm).
  rewrite (total_size_perm _ _ _ Hperm). f_equal; lia.
Qed.

Lemma add_files_raised (self : B) root files total e :
  add_files self root files total = Raise e →
  ∃ p, p ∈ triple_files self (root, [], files) ∧ stat self p = Raise e.
Proof.
  unfold triple_files. simpl. revert total.
  induction files as [|f files IH]; intros total; [done|].
  cbn [add_files]. rewrite fmap_cons.
  destruct (stat self (_path_join self [root; f])) as [info|e'] eqn:Hf.
  - cbn [bind]. intros (p & Hp & He)%IH. exists p. split; [by right|done].
  - cbn [bind]. intros [= ->]. exists (_path_join self [root; f]).
    split; [by left|done].
Qed.

Lemma add_files_returned (self : B) root files total total' :
  add_files self root files total = Ok total' →
  Forall (fun p => ∃ info, stat self p = Ok info)
         (triple_files self (root, [], files)).
Proof.
  unfold triple_files. simpl. revert total.
  induction files as [|f files IH]; intros total; [by constructor|].
  cbn [add_files]. rewrite fmap_cons.
  destruct (stat self (_path_join self [root; f])) as [info|e'] eqn:Hf.
  - cbn [bind]. intros Hrest%IH. constructor; [by exists info|done].
  - done.
Qed.

Lemma add_triples_raised (self : B) tups total e :
  add_triples self tups total = Raise e →
  ∃ p, p ∈ listed_files self tups ∧ stat self p = Raise e.
Proof.
  revert total. induction tups as [|[[root ds] files] tups IH]; intros total.
  - done.
  - unfold listed_files. rewrite bind_cons. cbn [add_triples].
    destruct (add_files self root files total) as [total'|e'] eqn:Hfiles.
    + cbn [bind]. intros (p & Hp & He)%IH. exists p.
      split; [|done]. apply elem_of_app. by right.
    + cbn [bind]. intros [= ->].
      destruct (add_files_raised _ _ _ _ _ Hfiles) as (p & Hp & He).
      exists p. split; [|done]. apply elem_of_app. by left.
Qed.

Lemma add_triples_returned (self : B) tups total total' :
  add_triples self tups total = Ok total' →
  Forall (fun p => ∃ info, stat self p = Ok info) (listed_files self tups).
Proof.
  revert total. induction tups as [|[[root ds] files] tups IH]; intros total.
  - intros _. constructor.
  - unfold listed_files. rewrite bind_cons. cbn [add_triples].
    destruct (add_files self root files total) as [total''|e'] eqn:Hfiles.
    + cbn [bind]. intros Hrest%IH. apply Forall_app. split; [|done].
      by apply (add_files_returned self root files total total'').
    + done.
Qed.

(** X15: [disk_usage] gives no total with a file left out.  It raises the
    exception of [stat] on the path when that call raises; and when the
    walk runs to its end and [stat] raises on any one of the files it
    lists, [disk_usage] raises an exception that [stat] raised on one of
    the listed files. *)
Theorem disk_usage_no_partial_total (self : B) (path : string) :
  (∀ e, stat self path = Raise e → disk_usage self path = Raise e)
  ∧ (∀ info tups p e, stat self path = Ok info → kind info ≠ "file" →
       walk self path = Ok tups →
       p ∈ listed_files self tups → stat self p = Raise e →
       ∃ p' e', p' ∈ listed_files self tups
                ∧ stat self p' = Raise e'
                ∧ disk_usage self path = Raise e').
Proof.
  unfold disk_usage. split.
  - by intros e ->.
  - intros info tups p e -> Hkind -> Hp He. cbn [bind].
    rewrite decide_False by done. cbn [bind].
    destruct (add_triples self tups 0) as [total|e'] eqn:Hadd.
    + apply add_triples_returned in Hadd.
      rewrite Forall_forall in Hadd. destruct (Hadd p Hp) as [? ?].
      congruence.
    + destruct (add_triples_raised _ _ _ _ Hadd) as (p' & Hp' & He').
      by exists p', e'.
Qed.

End disk_usage_more.

Lemma disk_usage_sums_listed_files_witness :
  disk_usage data_fs "/data" = Ok 7%Z
  ∧ add_triples data_fs data_fs_reordered 0 = disk_usage data_fs "/data".
Proof.
  assert (Hdir : stat data_fs "/data" = Ok (StatResult "directory" 4096))
    by (vm_compute; reflexivity).
  assert (Hwalk : walk data_fs "/data"
                  = Ok [("/data", ["sub"], ["a.bin"]);
                        ("/data/sub", [], ["b.bin"])])
    by (vm_compute; reflexivity).
  destruct (disk_usage_sums_listed_files data_fs "/data" _ _ Hdir
              ltac:(discriminate) Hwalk) as [Hsum Hany].
  - repeat constructor; eexists; vm_compute; reflexivity.
  - split; [exact Hsum|]. apply Hany. apply Permutation_swap.
Defined.

Lemma disk_usage_no_partial_total_witness :
  ∃ p' e', p' ∈ listed_files data_fs_unreadable
                   [("/data", ["sub"], ["a.bin"]);
                    ("/data/sub", [], ["b.bin"])]
           ∧ stat data_fs_unreadable p' = Raise e'
           ∧ disk_usage data_fs_unreadable "/data" = Raise e'.
Proof.
  assert (Hdir : stat data_fs_unreadable "/data"
                 = Ok (StatResult "directory" 4096))
    by (vm_compute; reflexivity).
  assert (Hwalk : walk data_fs_unreadable "/data"
                  = Ok [("/data", ["sub"], ["a.bin"]);
                        ("/data/sub", [], ["b.bin"])])
    by (vm_compute; reflexivity).
  apply (proj2 (disk_usage_no_partial_total data_fs_unreadable "/data")
           _ _ "/data/sub/b.bin" (Exn FileNotFoundError "/data/sub/b.bin")
           Hdir ltac:(discriminate) Hwalk).
  - vm_compute. apply list_elem_of_further, list_elem_of_here.
  - vm_compute. reflexivity.
Defined.

End UsageMoreFacts.
